(** * Spam Filter Manager: entry validation, token registry and rule service

    A shallow embedding of the back-end logic of the Spam Filter Manager
    extension and the properties of its specification.

    Sources embedded here:
    - the validators module, second part of [src/backend/utils/logger.js]:
      [isValidEmail] ... [normalizeEntry], [validateSpamEntry];
    - the authentication routes, [src/unnamed/part_002]: token issuance,
      refresh, logout;
    - [src/backend/middleware/auth.js]: [authenticateToken], [verifyOwnership];
    - the spam-rule routes, [src/unnamed/part_003]: list, add, remove and
      bulk handlers;
    - the store adapter, [src/unnamed/part_001], as the interface the routes
      call.

    Modelling conventions.
    - A JavaScript string is a [string] of 8-bit characters.  The model is
      exact on ASCII input; [toLowerCase] and [trim] treat the characters
      above 127 as caseless and as non-blank.
    - A regular expression literal is a term of [Regex.regex]; [RegExp.test]
      is language membership, decided with Brzozowski derivatives.  None of
      the source's expressions uses back-references or look-around, so
      membership coincides with the engine's backtracking search.
    - Time is an integer number of milliseconds since the epoch ([Date.now()]).
    - A handler is a function from the request and the state it reads to the
      response, the state it leaves and the trace of the calls it made to the
      logger and to the store adapter.
    - The spam-rule routes are embedded handler by handler, as the file has
      them, block scoping included.  The add handler calls
      [validationResult] in a block that declares a [const] of that name
      further down ([SpamRules.add_declarations], [SpamRules.dead_zone]);
      the bulk handler declares [errors] twice in one block
      ([SpamRules.bulk_declarations], [SpamRules.redeclares]). *)

From Stdlib Require Import ZArith Lia Bool Ascii String List.
From stdpp Require Import base decidable option list gmap strings pretty.

Local Open Scope string_scope.

(** ** JavaScript string primitives *)

Module Js.

Definition char_in (lo hi c : ascii) : bool :=
  (nat_of_ascii lo <=? nat_of_ascii c)%nat && (nat_of_ascii c <=? nat_of_ascii hi)%nat.

Definition is_upper (c : ascii) : bool := char_in "A" "Z" c.
Definition is_lower (c : ascii) : bool := char_in "a" "z" c.
Definition is_digit (c : ascii) : bool := char_in "0" "9" c.

(** [String.prototype.toLowerCase], one character. *)
Definition lower_char (c : ascii) : ascii :=
  if is_upper c then ascii_of_nat (nat_of_ascii c + 32) else c.

Fixpoint toLowerCase (s : string) : string :=
  match s with
  | EmptyString => EmptyString
  | String c r => String (lower_char c) (toLowerCase r)
  end.

(** White space as [trim] and the class [\s] see it: TAB, LF, VT, FF, CR
    and SPACE. *)
Definition is_space (c : ascii) : bool :=
  char_in "009" "013" c || Ascii.eqb c " ".

Fixpoint trimStart (s : string) : string :=
  match s with
  | EmptyString => EmptyString
  | String c r => if is_space c then trimStart r else s
  end.

Fixpoint trimEnd (s : string) : string :=
  match s with
  | EmptyString => EmptyString
  | String c r =>
      match trimEnd r with
      | EmptyString => if is_space c then EmptyString else String c EmptyString
      | r' => String c r'
      end
  end.

(** [String.prototype.trim]. *)
Definition trim (s : string) : string := trimEnd (trimStart s).

(** [String.prototype.startsWith]. *)
Fixpoint startsWith (s p : string) {struct p} : bool :=
  match p, s with
  | EmptyString, _ => true
  | String _ _, EmptyString => false
  | String a p', String b s' => Ascii.eqb a b && startsWith s' p'
  end.

(** [String.prototype.includes]. *)
Fixpoint includes (s sub : string) : bool :=
  startsWith s sub ||
  match s with
  | EmptyString => false
  | String _ r => includes r sub
  end.

(** [String.prototype.substring(1)]. *)
Definition substring1 (s : string) : string :=
  match s with
  | EmptyString => EmptyString
  | String _ r => r
  end.

(** [Array.prototype.includes] on an array of strings. *)
Definition array_includes (l : list string) (x : string) : bool :=
  existsb (String.eqb x) l.

(** No blank in front: the string is empty or led by a non-blank. *)
Definition headed (s : string) : bool :=
  match s with
  | EmptyString => true
  | String c _ => negb (is_space c)
  end.

(** Truthiness of a string value: only the empty string is falsy. *)
Definition truthy (s : string) : bool :=
  match s with EmptyString => false | _ => true end.

End Js.

(** ** Regular expressions *)

Module Regex.

Inductive regex : Type :=
| Void : regex                        (* matches nothing *)
| Eps : regex                         (* the empty string *)
| Cls : (ascii -> bool) -> regex      (* one character of a class *)
| Cat : regex -> regex -> regex
| Alt : regex -> regex -> regex
| Star : regex -> regex.

Fixpoint nullable (r : regex) : bool :=
  match r with
  | Void => false
  | Eps => true
  | Cls _ => false
  | Cat a b => nullable a && nullable b
  | Alt a b => nullable a || nullable b
  | Star _ => true
  end.

(** Constructors that drop the dead parts of a derivative. *)
Definition cat (a b : regex) : regex :=
  match a, b with
  | Void, _ => Void
  | _, Void => Void
  | Eps, _ => b
  | _, _ => Cat a b
  end.

Definition alt (a b : regex) : regex :=
  match a, b with
  | Void, _ => b
  | _, Void => a
  | _, _ => Alt a b
  end.

Fixpoint deriv (c : ascii) (r : regex) : regex :=
  match r with
  | Void => Void
  | Eps => Void
  | Cls p => if p c then Eps else Void
  | Cat a b =>
      if nullable a then alt (cat (deriv c a) b) (deriv c b)
      else cat (deriv c a) b
  | Alt a b => alt (deriv c a) (deriv c b)
  | Star a => cat (deriv c a) (Star a)
  end.

(** The whole string belongs to the language: [/^r$/.test(s)]. *)
Fixpoint matches (r : regex) (s : string) : bool :=
  match s with
  | EmptyString => nullable r
  | String c s' => matches (deriv c r) s'
  end.

Definition any : regex := Cls (fun _ => true).

(** Some substring belongs to the language: [/r/.test(s)]. *)
Definition search (r : regex) (s : string) : bool :=
  matches (Cat (Star any) (Cat r (Star any))) s.

Definition opt (r : regex) : regex := Alt Eps r.
Definition plus (r : regex) : regex := Cat r (Star r).

(** [r{0,n}] *)
Fixpoint upto (n : nat) (r : regex) : regex :=
  match n with
  | O => Eps
  | S k => opt (Cat r (upto k r))
  end.

(** [r{n}] *)
Fixpoint times (n : nat) (r : regex) : regex :=
  match n with
  | O => Eps
  | S k => Cat r (times k r)
  end.

Definition chr (a : ascii) : regex := Cls (Ascii.eqb a).

(** A literal under the [i] flag. *)
Definition chr_i (a : ascii) : regex :=
  Cls (fun c => Ascii.eqb (Js.lower_char a) (Js.lower_char c)).

Fixpoint lit (s : string) : regex :=
  match s with
  | EmptyString => Eps
  | String c r => Cat (chr c) (lit r)
  end.

Fixpoint lit_i (s : string) : regex :=
  match s with
  | EmptyString => Eps
  | String c r => Cat (chr_i c) (lit_i r)
  end.

(** Membership of a character in a bracket list. *)
Fixpoint one_of (s : string) (c : ascii) : bool :=
  match s with
  | EmptyString => false
  | String a r => Ascii.eqb a c || one_of r c
  end.

End Regex.

(** ** The entry validator (validators module of [src/backend/utils/logger.js]) *)

Module Validators.
Import Js Regex.

(** [[a-zA-Z0-9]] *)
Definition alnum (c : ascii) : bool := is_lower c || is_upper c || is_digit c.

(** [[a-zA-Z0-9-]] *)
Definition alnum_hyphen (c : ascii) : bool := alnum c || Ascii.eqb c "-".

(** [[a-zA-Z0-9.!#$%&'*+/=?^_`{|}~-]] *)
Definition local_char (c : ascii) : bool :=
  alnum c || one_of ".!#$%&'*+/=?^_`{|}~-" c.

(** [[0-9a-fA-F]] *)
Definition hex_digit (c : ascii) : bool :=
  is_digit c || char_in "a" "f" c || char_in "A" "F" c.

(** [\w] *)
Definition word_char (c : ascii) : bool := alnum c || Ascii.eqb c "_".

(** [[a-zA-Z0-9](?:[a-zA-Z0-9-]{0,61}[a-zA-Z0-9])?] *)
Definition label : regex :=
  Cat (Cls alnum) (opt (Cat (upto 61 (Cls alnum_hyphen)) (Cls alnum))).

(** [label(?:\.label)*] *)
Definition labels : regex := Cat label (Star (Cat (chr ".") label)).

Definition emailRegex : regex :=
  Cat (plus (Cls local_char)) (Cat (chr "@") labels).

Definition isValidEmail (email : string) : bool := matches emailRegex email.

Definition domainRegex : regex := labels.

Definition isValidDomain (domain : string) : bool :=
  let cleanDomain := if startsWith domain "@" then substring1 domain else domain in
  matches domainRegex cleanDomain && (String.length cleanDomain <=? 253)%nat.

(** [25[0-5]|2[0-4][0-9]|[01]?[0-9][0-9]?] *)
Definition octet : regex :=
  Alt (Cat (lit "25") (Cls (char_in "0" "5")))
    (Alt (Cat (chr "2") (Cat (Cls (char_in "0" "4")) (Cls is_digit)))
         (Cat (opt (Cls (one_of "01"))) (Cat (Cls is_digit) (opt (Cls is_digit))))).

Definition ipv4Regex : regex :=
  Cat (times 3 (Cat octet (chr "."))) octet.

Definition isValidIPv4 (ip : string) : bool := matches ipv4Regex ip.

(** [[0-9a-fA-F]{1,4}] *)
Definition hextet : regex := Cat (Cls hex_digit) (upto 3 (Cls hex_digit)).

Definition ipv6Regex : regex :=
  Alt (Cat (times 7 (Cat hextet (chr ":"))) hextet)
    (Alt (lit "::1") (lit "::")).

Definition isValidIPv6 (ip : string) : bool := matches ipv6Regex ip.

Definition isValidIP (ip : string) : bool := isValidIPv4 ip || isValidIPv6 ip.

Definition wildcardRegex : regex :=
  Alt (Cat (opt (lit "*.")) labels)
      (Cat (plus (Cls local_char)) (Cat (chr "@") (Cat (opt (lit "*.")) labels))).

Definition isValidWildcard (pattern : string) : bool := matches wildcardRegex pattern.

(** [normalizeEntry], on a string argument ([!entry] is then the test for
    the empty string). *)
Definition normalizeEntry (entry : string) : string :=
  if negb (truthy entry) then ""
  else
    let normalized := toLowerCase (trim entry) in
    if includes normalized "@" && negb (startsWith normalized "@") then
      normalized
    else if includes normalized "." && negb (includes normalized "@") then
      if negb (startsWith normalized "@") then "@" ++ normalized else normalized
    else normalized.

Definition dangerousPatterns : list regex :=
  [ lit_i "<script";
    lit_i "javascript:";
    Cat (lit_i "on") (Cat (plus (Cls word_char)) (Cat (Star (Cls is_space)) (chr "=")));
    Cat (lit_i "eval") (Cat (Star (Cls is_space)) (chr "("));
    Cat (lit_i "expression") (Cat (Star (Cls is_space)) (chr "("));
    Cat (lit_i "url") (Cat (Star (Cls is_space)) (chr "("));
    lit_i "@import";
    lit_i "<iframe";
    lit_i "<object";
    lit_i "<embed" ].

Definition err_required : string := "Entry is required".
Definition err_empty : string := "Entry cannot be empty".
Definition err_too_long : string := "Entry is too long (maximum 255 characters)".
Definition err_dangerous : string := "Entry contains potentially dangerous content".
Definition err_email : string := "Invalid email address format".
Definition err_domain : string := "Invalid domain format".
Definition err_wildcard : string := "Invalid wildcard pattern".
Definition err_format : string :=
  "Invalid entry format. Must be email, domain, IP address, or wildcard pattern".

(** The loop over [dangerousPatterns]: one [push] at the first pattern that
    matches, then [break]. *)
Fixpoint scanDangerous (patterns : list regex) (normalized : string)
    (errors : list string) : list string :=
  match patterns with
  | [] => errors
  | pattern :: rest =>
      if search pattern normalized then errors ++ [err_dangerous]
      else scanDangerous rest normalized errors
  end.

(** The arm of the final [if]/[else if] chain that a normalized text takes,
    named after the comment that heads it in the source. *)
Inductive branch : Type :=
| EmailAddress | Domain | WildcardPattern | IPAddress | DomainWithoutAt.

Definition entryBranch (normalized : string) : branch :=
  if includes normalized "@" then EmailAddress
  else if startsWith normalized "@" then Domain
  else if includes normalized "*" then WildcardPattern
  else if isValidIP normalized then IPAddress
  else DomainWithoutAt.

(** The normalized text matches at least one pattern of the denylist. *)
Definition dangerous (normalized : string) : bool :=
  existsb (fun pattern => search pattern normalized) dangerousPatterns.

(** "Validate based on entry type". *)
Definition checkFormat (normalized : string) (errors : list string) : list string :=
  match entryBranch normalized with
  | EmailAddress =>
      if negb (isValidEmail normalized) then errors ++ [err_email] else errors
  | Domain =>
      if negb (isValidDomain normalized) then errors ++ [err_domain] else errors
  | WildcardPattern =>
      if negb (isValidWildcard normalized) then errors ++ [err_wildcard] else errors
  | IPAddress => errors
  | DomainWithoutAt =>
      let domainWithAt := "@" ++ normalized in
      if isValidDomain domainWithAt then errors else errors ++ [err_format]
  end.

(** The object [validateSpamEntry] returns; [normalized] is absent from the
    three early returns.  The function is embedded on string arguments, for
    which [!entry] is the test for the empty string. *)
Record validation : Type := Validation {
  isValid : bool;
  errors : list string;
  normalized : option string
}.

Definition validateSpamEntry (entry : string) : validation :=
  let errors := [] in
  if negb (truthy entry) then
    Validation false (errors ++ [err_required]) None
  else
    let normalized := normalizeEntry entry in
    if (String.length normalized =? 0)%nat then
      Validation false (errors ++ [err_empty]) None
    else if (255 <? String.length normalized)%nat then
      Validation false (errors ++ [err_too_long]) None
    else
      let errors := scanDangerous dangerousPatterns normalized errors in
      let errors := checkFormat normalized errors in
      Validation (length errors =? 0)%nat errors (Some normalized).

(** The kinds of entry of the data model. *)
Inductive kind : Type := Email | DomainKind | IPAddressKind | Wildcard.

Definition kind_of_branch (b : branch) : kind :=
  match b with
  | EmailAddress => Email
  | Domain | DomainWithoutAt => DomainKind
  | WildcardPattern => Wildcard
  | IPAddress => IPAddressKind
  end.

(** The kind under which the validator accepts an entry, if it does: the
    kind of the arm that let its normalized text through. *)
Definition classify (entry : string) : option kind :=
  let v := validateSpamEntry entry in
  match isValid v, normalized v with
  | true, Some n => Some (kind_of_branch (entryBranch n))
  | _, _ => None
  end.

End Validators.

(** ** Tokens and the logger *)

Module Token.

(** The claims [generateToken] signs. *)
Record payload : Type := Payload {
  p_email : string;
  p_mailbox : string;
  p_type : string;
  iat : Z;
  exp : Z
}.

(** A bearer token, symbolically: either the encoding of a payload signed
    under a secret, or any other string a client may send.  Signing is
    deterministic, so equal payloads under equal secrets are equal tokens. *)
Inductive bearer : Type :=
| Signed (claims : payload) (secret : string)
| Opaque (text : string).

#[global] Instance payload_eq_dec : EqDecision payload.
Proof. solve_decision. Defined.

#[global] Instance token_eq_dec : EqDecision bearer.
Proof. solve_decision. Defined.

Definition payload_to_tuple (p : payload) : string * string * string * Z * Z :=
  (p_email p, p_mailbox p, p_type p, iat p, exp p).

Definition payload_of_tuple (t : string * string * string * Z * Z) : payload :=
  let '(e, m, ty, i, x) := t in Payload e m ty i x.

#[global] Instance payload_countable : Countable payload.
Proof.
  refine (inj_countable' payload_to_tuple payload_of_tuple _).
  intros []; reflexivity.
Defined.

Definition token_to_sum (t : bearer) : payload * string + string :=
  match t with
  | Signed p k => inl (p, k)
  | Opaque s => inr s
  end.

Definition token_of_sum (x : payload * string + string) : bearer :=
  match x with
  | inl (p, k) => Signed p k
  | inr s => Opaque s
  end.

#[global] Instance token_countable : Countable bearer.
Proof.
  refine (inj_countable' token_to_sum token_of_sum _).
  intros []; reflexivity.
Defined.

(** [jwt.sign(payload, secret)]. *)
Definition jwt_sign (p : payload) (secret : string) : bearer := Signed p secret.

(** [jwt.verify(token, secret)] at clock [now] (milliseconds): the decoded
    payload, or [None] where the library throws (bad signature, malformed
    token, or [exp] reached). *)
Definition jwt_verify (t : bearer) (secret : string) (now : Z) : option payload :=
  match t with
  | Signed p k =>
      if bool_decide (k = secret) && (now / 1000 <? exp p)%Z then Some p else None
  | Opaque _ => None
  end.

(** What the registries keep for a token. *)
Record token_data : Type := TokenData {
  email : string;
  mailbox : string;
  createdAt : Z;
  expiresAt : Z
}.

(** One call to the logger: level, message, and the fields of its metadata
    object. *)
Record log_entry : Type := Log {
  level : string;
  log_message : string;
  meta : list (string * string)
}.

Definition day_ms : Z := 24 * 60 * 60 * 1000.

End Token.

(** ** The authentication routes ([src/unnamed/part_002]) *)

Module AuthRoutes.
Import Token.

(** A JSON reply of these routes: HTTP status, [status], [message], and the
    token and [expiresIn] of a successful issuance. *)
Record reply : Type := Reply {
  code : nat;
  status : string;
  message : string;
  reply_token : option bearer;
  expiresIn : option string
}.

Definition error_reply (c : nat) (msg : string) : reply :=
  Reply c "error" msg None None.

Definition token_reply (msg : string) (t : bearer) : reply :=
  Reply 200 "success" msg (Some t) (Some "24h").

Section WithSecret.
(** [process.env.JWT_SECRET || 'default-secret-change-in-production'] *)
Variable secret : string.

(** [generateToken(email, mailbox)] at clock [now]. *)
Definition generateToken (now : Z) (email mailbox : string) : bearer :=
  let payload :=
    Payload email mailbox "mail_user" (now / 1000) (now / 1000 + 24 * 60 * 60) in
  jwt_sign payload secret.

(** [POST /verify-plesk-session].  [validation] is what express-validator
    found wrong with the body; [isValidSession] is what
    [pleskAdapter.verifyPleskSession] resolved to, [None] if it threw. *)
Definition verifyPleskSession (now : Z) (validation : list string)
    (sessionId mailbox : string) (isValidSession : option bool)
    (tokenStore : gmap bearer token_data)
    : reply * gmap bearer token_data * list log_entry :=
  if negb (length validation =? 0)%nat then
    (error_reply 400 "Validation failed", tokenStore, [])
  else
    match isValidSession with
    | None =>
        (error_reply 500 "Authentication failed", tokenStore,
         [Log "error" "Plesk session verification failed" []])
    | Some false =>
        (error_reply 401 "Invalid session or insufficient permissions", tokenStore, [])
    | Some true =>
        let token := generateToken now mailbox mailbox in
        let tokenStore :=
          <[token := TokenData mailbox mailbox now (now + day_ms)]> tokenStore in
        (token_reply "Authentication successful" token, tokenStore,
         [Log "info" "Plesk session verified successfully" [("mailbox", mailbox)]])
    end.

(** [POST /verify-mailbox].  [isOwner] is the outcome of the IMAP
    handshake of [verifyMailboxOwnership]. *)
Definition verifyMailbox (now : Z) (validation : list string)
    (email password mailbox : string) (isOwner : bool)
    (tokenStore : gmap bearer token_data)
    : reply * gmap bearer token_data * list log_entry :=
  if negb (length validation =? 0)%nat then
    (error_reply 400 "Validation failed", tokenStore, [])
  else if negb (String.eqb email mailbox) then
    (error_reply 400 "Email and mailbox must match", tokenStore, [])
  else if negb isOwner then
    (error_reply 401 "Invalid credentials or mailbox not accessible", tokenStore, [])
  else
    let token := generateToken now email mailbox in
    let tokenStore :=
      <[token := TokenData email mailbox now (now + day_ms)]> tokenStore in
    (token_reply "Authentication successful" token, tokenStore,
     [Log "info" "Mailbox ownership verified via IMAP"
        [("email", email); ("mailbox", mailbox)]]).

(** [POST /refresh]. *)
Definition refresh (now : Z) (token : bearer) (tokenStore : gmap bearer token_data)
    : reply * gmap bearer token_data * list log_entry :=
  match tokenStore !! token with
  | Some tokenData =>
      if (expiresAt tokenData <? now)%Z then
        (error_reply 401 "Invalid or expired token", delete token tokenStore, [])
      else
        let newToken := generateToken now (email tokenData) (mailbox tokenData) in
        let tokenStore := delete token tokenStore in
        let tokenStore :=
          <[newToken := TokenData (email tokenData) (mailbox tokenData) now (now + day_ms)]>
            tokenStore in
        (token_reply "Token refreshed successfully" newToken, tokenStore, [])
  | None =>
      (error_reply 401 "Invalid or expired token", delete token tokenStore, [])
  end.

(** [POST /logout]. *)
Definition logout (token : bearer) (tokenStore : gmap bearer token_data)
    : reply * gmap bearer token_data * list log_entry :=
  match tokenStore !! token with
  | Some tokenData =>
      (Reply 200 "success" "Logged out successfully" None None,
       delete token tokenStore,
       [Log "info" "User logged out" [("email", email tokenData)]])
  | None =>
      (Reply 200 "success" "Logged out successfully" None None, tokenStore, [])
  end.

End WithSecret.

End AuthRoutes.

(** ** The middleware ([src/backend/middleware/auth.js]) *)

Module Middleware.
Import Token.

(** [req.user], as [authenticateToken] sets it. *)
Record user : Type := User {
  user_email : string;
  user_mailbox : string;
  user_type : string
}.

Record rejection : Type := Rejection {
  code : nat;
  status : string;
  message : string
}.

(** A middleware either hands the request on ([next()]) or answers it. *)
Inductive outcome : Type :=
| Next (u : user)
| Respond (r : rejection).

(** [authenticateToken].  [authorization] is the second word of the
    [Authorization] header, [None] when the header or that word is
    missing; [tokenStore] is the [Map] this module creates for itself. *)
Definition authenticateToken (secret : string) (now : Z) (ip : string)
    (authorization : option bearer) (tokenStore : gmap bearer token_data)
    : outcome * gmap bearer token_data * list log_entry :=
  match authorization with
  | None => (Respond (Rejection 401 "error" "Access token required"), tokenStore, [])
  | Some token =>
      match jwt_verify token secret now with
      | None =>
          (Respond (Rejection 403 "error" "Invalid token"), tokenStore,
           [Log "warn" "Invalid token provided" [("ip", ip)]])
      | Some decoded =>
          match tokenStore !! token with
          | Some tokenData =>
              if (expiresAt tokenData <? now)%Z then
                (Respond (Rejection 401 "error" "Token expired or invalid"),
                 delete token tokenStore, [])
              else
                (Next (User (p_email decoded) (p_mailbox decoded) (p_type decoded)),
                 tokenStore, [])
          | None =>
              (Respond (Rejection 401 "error" "Token expired or invalid"),
               delete token tokenStore, [])
          end
      end
  end.

(** [a || b] on two possibly-undefined strings. *)
Definition js_or (a b : option string) : option string :=
  match a with
  | Some s => if Js.truthy s then a else b
  | None => b
  end.

(** [verifyOwnership]: [body_mailbox] and [query_mailbox] are
    [req.body.mailbox] and [req.query.mailbox]. *)
Definition verifyOwnership (body_mailbox query_mailbox : option string)
    (u : user) (ip : string) : outcome * list log_entry :=
  let requestedMailbox := js_or body_mailbox query_mailbox in
  let userMailbox := user_mailbox u in
  match requestedMailbox with
  | Some requested =>
      if Js.truthy requested && negb (String.eqb requested userMailbox) then
        (Respond (Rejection 403 "error"
                    "Access denied: You can only manage your own mailbox"),
         [Log "warn" "Ownership verification failed"
            [("requestedMailbox", requested); ("userMailbox", userMailbox);
             ("ip", ip); ("user", user_email u)]])
      else (Next u, [])
  | None => (Next u, [])
  end.

End Middleware.

(** ** The whole authentication state *)

Module Server.
Import Token.

(** The two registries of the process: the [tokenStore] of the
    authentication routes and the [tokenStore] of the middleware module.
    Each module builds its own with [new Map()]. *)
Record state : Type := State {
  routes_tokenStore : gmap bearer token_data;
  middleware_tokenStore : gmap bearer token_data
}.

Definition initial : state := State ∅ ∅.

(** The requests that touch a registry. *)
Inductive request : Type :=
| VerifyPleskSession (validation : list string) (sessionId mailbox : string)
    (isValidSession : option bool)
| VerifyMailbox (validation : list string) (email password mailbox : string)
    (isOwner : bool)
| Refresh (token : bearer)
| Logout (token : bearer)
| Protected (ip : string) (authorization : option bearer).

(** What a request is answered with: a reply of the authentication routes,
    or the outcome of [authenticateToken] in front of a protected route. *)
Inductive answer : Type :=
| Routed (r : AuthRoutes.reply)
| Guarded (o : Middleware.outcome).

Definition serve (secret : string) (now : Z) (rq : request) (s : state)
    : answer * state :=
  match rq with
  | VerifyPleskSession validation sessionId mailbox isValidSession =>
      let '(r, store, _) :=
        AuthRoutes.verifyPleskSession secret now validation sessionId mailbox
          isValidSession (routes_tokenStore s) in
      (Routed r, State store (middleware_tokenStore s))
  | VerifyMailbox validation email password mailbox isOwner =>
      let '(r, store, _) :=
        AuthRoutes.verifyMailbox secret now validation email password mailbox
          isOwner (routes_tokenStore s) in
      (Routed r, State store (middleware_tokenStore s))
  | Refresh token =>
      let '(r, store, _) := AuthRoutes.refresh secret now token (routes_tokenStore s) in
      (Routed r, State store (middleware_tokenStore s))
  | Logout token =>
      let '(r, store, _) := AuthRoutes.logout token (routes_tokenStore s) in
      (Routed r, State store (middleware_tokenStore s))
  | Protected ip authorization =>
      let '(o, store, _) :=
        Middleware.authenticateToken secret now ip authorization
          (middleware_tokenStore s) in
      (Guarded o, State (routes_tokenStore s) store)
  end.

(** A history: requests with the clock at which each is served, oldest
    first. *)
Fixpoint run (secret : string) (history : list (Z * request)) (s : state) : state :=
  match history with
  | [] => s
  | (now, rq) :: rest => run secret rest (snd (serve secret now rq s))
  end.

(** The token an answer hands to the client, if any. *)
Definition issued (a : answer) : option bearer :=
  match a with
  | Routed r => AuthRoutes.reply_token r
  | Guarded _ => None
  end.

End Server.

(** ** The spam-rule routes ([src/unnamed/part_003]) *)

Module SpamRules.
Import Token Validators.

Inductive listType : Type := Whitelist | Blacklist.
Inductive action : Type := Add | Remove.

Definition listType_name (l : listType) : string :=
  match l with Whitelist => "whitelist" | Blacklist => "blacklist" end.

(** What [getSpamRules] resolves to. *)
Record rules : Type := Rules {
  whitelist : list string;
  blacklist : list string;
  lastUpdated : string
}.

(** [existingRules[listType]] *)
Definition select (l : listType) (r : rules) : list string :=
  match l with Whitelist => whitelist r | Blacklist => blacklist r end.

(** What [addSpamRule] and [removeSpamRule] resolve to. *)
Record adapter_result : Type := AdapterResult {
  success : bool;
  error : option string
}.

(** An awaited call either yields a value or throws. *)
Inductive call (A : Type) : Type :=
| Returned (a : A)
| Threw (error_message : string).
Arguments Returned {A} a.
Arguments Threw {A} error_message.

(** What a handler does besides answering: its calls to the logger and to
    the store adapter, in order. *)
Inductive effect : Type :=
| Logged (l : log_entry)
| GetSpamRules (mailbox : string)
| AddSpamRule (mailbox : string) (l : listType) (entry : string)
| RemoveSpamRule (mailbox : string) (l : listType) (entry : string).

Definition is_add (f : effect) : bool :=
  match f with AddSpamRule _ _ _ => true | _ => false end.

(** One operation of a bulk request. *)
Record operation : Type := Operation {
  op_action : action;
  op_listType : listType;
  op_entry : string
}.

(** An item of [results]. *)
Record bulk_result : Type := BulkResult {
  res_action : action;
  res_listType : listType;
  res_entry : string;
  res_status : string
}.

(** An item of [errors]. *)
Record bulk_error : Type := BulkError {
  err_entry : string;
  err_error : string;
  err_details : list string
}.

(** The JSON answers of these routes. *)
Inductive reply : Type :=
| ErrorReply (code : nat) (message : string) (details : list string)
| RulesReply (mailbox : string) (whitelist blacklist : list string)
    (lastUpdated : string)
| AddedReply (value : string) (l : listType) (addedAt : Z)
| RemovedReply
| BulkReply (message : string) (results : list bulk_result)
    (errors : list bulk_error).

Definition access_denied : string :=
  "Access denied: You can only manage your own mailbox".

(** The body of a single-entry request, with what the earlier stages
    attached to it: [validation] is the list express-validator reports
    ([validationResult(req)]), [user] is [req.user]. *)
Record rule_request : Type := RuleRequest {
  validation : list string;
  mailbox : string;
  rq_listType : listType;
  entry : string;
  user : Middleware.user;
  ip : string
}.

Record bulk_request : Type := BulkRequest {
  b_validation : list string;
  b_mailbox : string;
  operations : list operation;
  b_user : Middleware.user;
  b_ip : string
}.

(** [x || fallback] on a possibly-undefined string. *)
Definition or_default (x : option string) (fallback : string) : string :=
  match x with
  | Some s => if Js.truthy s then s else fallback
  | None => fallback
  end.

Definition details_of (x : option string) : list string :=
  match x with Some s => [s] | None => [] end.

(** An operation whose entry the validator accepts. *)
Definition well_formed (operation : operation) : bool :=
  isValid (validateSpamEntry (op_entry operation)).

(** The item of [results] for an operation that went through. *)
Definition result_of (operation : operation) : bulk_result :=
  BulkResult (op_action operation) (op_listType operation) (op_entry operation) "success".

(** The item of [errors] for an operation whose entry is malformed. *)
Definition malformed_item (operation : operation) : bulk_error :=
  BulkError (op_entry operation) "Invalid entry format"
    (errors (validateSpamEntry (op_entry operation))).

(** The adapter call an operation stands for. *)
Definition call_of (mailbox : string) (operation : operation) : effect :=
  match op_action operation with
  | Add => AddSpamRule mailbox (op_listType operation) (op_entry operation)
  | Remove => RemoveSpamRule mailbox (op_listType operation) (op_entry operation)
  end.

Section WithAdapter.
(** The store adapter ([pleskAdapter]) over the state of the external
    filtering engine. *)
Variable engine : Type.
Variable getSpamRules : engine -> string -> call rules.
Variable addSpamRule :
  engine -> string -> listType -> string -> call adapter_result * engine.
Variable removeSpamRule :
  engine -> string -> listType -> string -> call adapter_result * engine.

Definition unauthorized (kind_of_attempt : string) (rq_mailbox userMailbox ip : string)
    : effect :=
  Logged (Log "warn" kind_of_attempt
            [("requestedMailbox", rq_mailbox); ("userMailbox", userMailbox);
             ("ip", ip)]).

(** [GET /] *)
Definition getRules (req : rule_request) (e : engine)
    : reply * engine * list effect :=
  if negb (length (validation req) =? 0)%nat then
    (ErrorReply 400 "Validation failed" (validation req), e, [])
  else
    let userMailbox := Middleware.user_mailbox (user req) in
    if negb (String.eqb (mailbox req) userMailbox) then
      (ErrorReply 403 access_denied [], e,
       [unauthorized "Unauthorized access attempt" (mailbox req) userMailbox (ip req)])
    else
      match getSpamRules e (mailbox req) with
      | Threw msg =>
          (ErrorReply 500 "Failed to retrieve spam rules" [], e,
           [GetSpamRules (mailbox req);
            Logged (Log "error" "Failed to retrieve spam rules"
                      [("error", msg); ("mailbox", mailbox req)])])
      | Returned rules =>
          (RulesReply (mailbox req) (whitelist rules) (blacklist rules)
             (lastUpdated rules), e,
           [GetSpamRules (mailbox req);
            Logged (Log "info" "Spam rules retrieved" [("mailbox", mailbox req)])])
      end.

Definition add_failed (req : rule_request) (msg : string) : effect :=
  Logged (Log "error" "Failed to add spam rule"
            [("error", msg); ("mailbox", mailbox req);
             ("listType", listType_name (rq_listType req)); ("entry", entry req)]).

(** The names the [try] block of the add handler declares with [const],
    each with the source line of its declaration (lines 70-144 of the routes
    file). *)
Definition add_declarations : list (string * nat) :=
  [("errors", 71%nat); ("mailbox", 80%nat); ("listType", 80%nat); ("entry", 80%nat);
   ("userMailbox", 81%nat); ("validationResult", 97%nat);
   ("existingRules", 107%nat); ("existingList", 108%nat); ("result", 118%nat)].

(** A name that a block declares with [const] is the block's own over the
    whole block; read on a line the declaration has not yet been reached
    from, it is in its temporal dead zone and the read throws a
    ReferenceError. *)
Definition dead_zone (declarations : list (string * nat)) (name : string)
    (line : nat) : bool :=
  existsb (fun d => String.eqb (fst d) name && (line <=? snd d)%nat) declarations.

(** [validationResult(req)] on line 71, the first statement of the block:
    the name is the block's own [const] of line 97, not the imported
    function. *)
Definition validationResult_line71 (req : rule_request) : call (list string) :=
  if dead_zone add_declarations "validationResult" 71 then
    Threw "Cannot access 'validationResult' before initialization"
  else Returned (validation req).

(** [POST /]: the [try] block, whose first statement is the call of line 71,
    and the [catch] of lines 145-156, which logs the error and answers 500. *)
Definition addRule (now : Z) (req : rule_request) (e : engine)
    : reply * engine * list effect :=
  match validationResult_line71 req with
  | Threw msg => (ErrorReply 500 "Failed to add entry" [], e, [add_failed req msg])
  | Returned errors =>
      if negb (length errors =? 0)%nat then
        (ErrorReply 400 "Validation failed" errors, e, [])
      else
        let userMailbox := Middleware.user_mailbox (user req) in
        if negb (String.eqb (mailbox req) userMailbox) then
          (ErrorReply 403 access_denied [], e,
           [unauthorized "Unauthorized modification attempt" (mailbox req) userMailbox
              (ip req)])
        else
          let validationResult := validateSpamEntry (entry req) in
          if negb (isValid validationResult) then
            (ErrorReply 400 "Invalid entry format" (Validators.errors validationResult), e, [])
          else
            match getSpamRules e (mailbox req) with
            | Threw msg =>
                (ErrorReply 500 "Failed to add entry" [], e,
                 [GetSpamRules (mailbox req); add_failed req msg])
            | Returned existingRules =>
                let existingList := select (rq_listType req) existingRules in
                if Js.array_includes existingList (entry req) then
                  (ErrorReply 409 "Entry already exists in the list" [], e,
                   [GetSpamRules (mailbox req)])
                else
                  let called :=
                    [GetSpamRules (mailbox req);
                     AddSpamRule (mailbox req) (rq_listType req) (entry req)] in
                  match addSpamRule e (mailbox req) (rq_listType req) (entry req) with
                  | (Threw msg, e') =>
                      (ErrorReply 500 "Failed to add entry" [], e',
                       (called ++ [add_failed req msg])%list)
                  | (Returned result, e') =>
                      if negb (success result) then
                        (ErrorReply 500 "Failed to add entry" (details_of (error result)),
                         e', called)
                      else
                        (AddedReply (entry req) (rq_listType req) now, e',
                         (called ++
                          [Logged (Log "info" "Spam rule added"
                                     [("mailbox", mailbox req);
                                      ("listType", listType_name (rq_listType req));
                                      ("entry", entry req);
                                      ("user", Middleware.user_email (user req))])])%list)
                  end
            end
  end.

Definition remove_failed (req : rule_request) (msg : string) : effect :=
  Logged (Log "error" "Failed to remove spam rule"
            [("error", msg); ("mailbox", mailbox req);
             ("listType", listType_name (rq_listType req)); ("entry", entry req)]).

(** [DELETE /] *)
Definition removeRule (req : rule_request) (e : engine)
    : reply * engine * list effect :=
  if negb (length (validation req) =? 0)%nat then
    (ErrorReply 400 "Validation failed" (validation req), e, [])
  else
    let userMailbox := Middleware.user_mailbox (user req) in
    if negb (String.eqb (mailbox req) userMailbox) then
      (ErrorReply 403 access_denied [], e,
       [unauthorized "Unauthorized modification attempt" (mailbox req) userMailbox
          (ip req)])
    else
      match getSpamRules e (mailbox req) with
      | Threw msg =>
          (ErrorReply 500 "Failed to remove entry" [], e,
           [GetSpamRules (mailbox req); remove_failed req msg])
      | Returned existingRules =>
          let existingList := select (rq_listType req) existingRules in
          if negb (Js.array_includes existingList (entry req)) then
            (ErrorReply 404 "Entry not found in the list" [], e,
             [GetSpamRules (mailbox req)])
          else
            let called :=
              [GetSpamRules (mailbox req);
               RemoveSpamRule (mailbox req) (rq_listType req) (entry req)] in
            match removeSpamRule e (mailbox req) (rq_listType req) (entry req) with
            | (Threw msg, e') =>
                (ErrorReply 500 "Failed to remove entry" [], e',
                 (called ++ [remove_failed req msg])%list)
            | (Returned result, e') =>
                if negb (success result) then
                  (ErrorReply 500 "Failed to remove entry" (details_of (error result)),
                   e', called)
                else
                  (RemovedReply, e',
                   (called ++
                    [Logged (Log "info" "Spam rule removed"
                               [("mailbox", mailbox req);
                                ("listType", listType_name (rq_listType req));
                                ("entry", entry req);
                                ("user", Middleware.user_email (user req))])])%list)
            end
      end.

(** The adapter call of the bulk loop: [addSpamRule] for an ['add'],
    [removeSpamRule] otherwise. *)
Definition dispatch (mailbox : string) (operation : operation) (e : engine)
    : call adapter_result * engine :=
  match op_action operation with
  | Add => addSpamRule e mailbox (op_listType operation) (op_entry operation)
  | Remove => removeSpamRule e mailbox (op_listType operation) (op_entry operation)
  end.

(** The body of the bulk loop for one operation: the item it pushes,
    to [results] (left) or to [errors] (right). *)
Definition bulkOperation (mailbox : string) (operation : operation) (e : engine)
    : (bulk_result + bulk_error) * engine * list effect :=
  let action := op_action operation in
  let listType := op_listType operation in
  let entry := op_entry operation in
  let validationResult := validateSpamEntry entry in
  if negb (isValid validationResult) then
    (inr (BulkError entry "Invalid entry format" (errors validationResult)), e, [])
  else
    let '(result, e', called) :=
      match action with
      | Add =>
          let '(r, e') := addSpamRule e mailbox listType entry in
          (r, e', [AddSpamRule mailbox listType entry])
      | Remove =>
          let '(r, e') := removeSpamRule e mailbox listType entry in
          (r, e', [RemoveSpamRule mailbox listType entry])
      end in
    match result with
    | Returned result =>
        if success result then
          (inl (BulkResult action listType entry "success"), e', called)
        else
          (inr (BulkError entry (or_default (error result) "Operation failed") []),
           e', called)
    | Threw msg => (inr (BulkError entry msg []), e', called)
    end.

(** [for (const operation of operations) { ... }] *)
Fixpoint bulkLoop (mailbox : string) (operations : list operation) (e : engine)
    (results : list bulk_result) (errors : list bulk_error) (trace : list effect)
    : list bulk_result * list bulk_error * engine * list effect :=
  match operations with
  | [] => (results, errors, e, trace)
  | operation :: rest =>
      let '(item, e', called) := bulkOperation mailbox operation e in
      match item with
      | inl r => bulkLoop mailbox rest e' (results ++ [r]) errors (trace ++ called)
      | inr x => bulkLoop mailbox rest e' results (errors ++ [x]) (trace ++ called)
      end
  end.

(** The names the [try] block of the bulk handler declares with [const],
    in source order (lines 252-273 of the routes file). *)
Definition bulk_declarations : list string :=
  ["errors"; "mailbox"; "operations"; "userMailbox"; "results"; "errors"].

(** A block that declares one name twice with [const] is an early error
    of the language: the module holding it is refused when it is loaded. *)
Definition redeclares (names : list string) : bool :=
  negb (bool_decide (NoDup names)).

(** [POST /bulk] as the file has it: the handler answers a request only if
    its block is one the language accepts. *)
Definition bulk_as_written (req : bulk_request) (e : engine)
    : option (reply * engine * list effect) :=
  if redeclares bulk_declarations then None
  else
    Some
     (if negb (length (b_validation req) =? 0)%nat then
          (ErrorReply 400 "Validation failed" (b_validation req), e, [])
        else
          let userMailbox := Middleware.user_mailbox (b_user req) in
          if negb (String.eqb (b_mailbox req) userMailbox) then
            (ErrorReply 403 access_denied [], e, [])
          else
            let '(results, errors, e', trace) :=
              bulkLoop (b_mailbox req) (operations req) e [] [] [] in
            let successful := pretty (length results) in
            let failed := pretty (length errors) in
            (BulkReply
               ("Bulk operation completed: " ++ successful ++ " successful, "
                  ++ failed ++ " failed")
               results errors,
             e',
             (trace ++
              [Logged (Log "info" "Bulk spam rules operation completed"
                         [("mailbox", b_mailbox req);
                          ("totalOperations", pretty (length (operations req)));
                          ("successful", successful);
                          ("failed", failed)])])%list)).

End WithAdapter.

End SpamRules.

(** ** A reference engine behind the adapter *)

Module MemoryEngine.
Import SpamRules.

(** Modelled from the spec: the external filtering engine that the store
    adapter reaches through the Plesk command line, which is no part of
    this repository.  The engine holds the membership relation (mailbox,
    list kind, entry); an add creates a membership with the entry text as
    given, a remove destroys it, and a read returns the entries of the
    mailbox, oldest first. *)
Definition engine : Type := list (string * listType * string).

Definition same_list (a b : listType) : bool :=
  match a, b with
  | Whitelist, Whitelist | Blacklist, Blacklist => true
  | _, _ => false
  end.

Definition entries (e : engine) (mailbox : string) (l : listType) : list string :=
  map snd
    (List.filter
       (fun m => String.eqb (fst (fst m)) mailbox && same_list (snd (fst m)) l) e).

Definition getSpamRules (e : engine) (mailbox : string) : call rules :=
  Returned (Rules (entries e mailbox Whitelist) (entries e mailbox Blacklist) "").

Definition addSpamRule (e : engine) (mailbox : string) (l : listType) (entry : string)
    : call adapter_result * engine :=
  (Returned (AdapterResult true None), (e ++ [(mailbox, l, entry)])%list).

Definition removeSpamRule (e : engine) (mailbox : string) (l : listType)
    (entry : string) : call adapter_result * engine :=
  (Returned (AdapterResult true None),
   List.filter
     (fun m => negb (String.eqb (fst (fst m)) mailbox && same_list (snd (fst m)) l
                     && String.eqb (snd m) entry)) e).

Definition addRule := SpamRules.addRule engine getSpamRules addSpamRule.
Definition removeRule := SpamRules.removeRule engine getSpamRules removeSpamRule.
Definition getRules := SpamRules.getRules engine getSpamRules.

End MemoryEngine.

(** ** The language of a regular expression *)

Module Language.
Import Regex.

(** The strings a regular expression denotes. *)
Inductive Matches : regex -> string -> Prop :=
| MEps : Matches Eps ""
| MCls (p : ascii -> bool) (c : ascii) : p c = true -> Matches (Cls p) (String c "")
| MCat (a b : regex) (s t : string) :
    Matches a s -> Matches b t -> Matches (Cat a b) (s ++ t)
| MAltL (a b : regex) (s : string) : Matches a s -> Matches (Alt a b) s
| MAltR (a b : regex) (s : string) : Matches b s -> Matches (Alt a b) s
| MStar0 (a : regex) : Matches (Star a) ""
| MStarS (a : regex) (s t : string) :
    Matches a s -> Matches (Star a) t -> Matches (Star a) (s ++ t).

(** The characters that occur in some class of an expression. *)
Fixpoint alphabet (r : regex) (c : ascii) : bool :=
  match r with
  | Void | Eps => false
  | Cls p => p c
  | Cat a b | Alt a b => alphabet a c || alphabet b c
  | Star a => alphabet a c
  end.

(** Every character of a string satisfies a test. *)
Fixpoint all_chars (P : ascii -> bool) (s : string) : bool :=
  match s with
  | EmptyString => true
  | String c r => P c && all_chars P r
  end.

End Language.

(** ** The other validators of the validators module *)

Module InputChecks.
Import Js Regex Validators.

(** What [validateMailbox] and [validateListType] return: [{isValid: false,
    error}] or [{isValid: true, normalized}]. *)
Inductive checked : Type :=
| Refused (error : string)
| Accepted (normalized : string).

(** [validateMailbox], on a string argument. *)
Definition validateMailbox (mailbox : string) : checked :=
  if negb (truthy mailbox) then Refused "Mailbox is required"
  else
    let normalized := toLowerCase (trim mailbox) in
    if negb (isValidEmail normalized) then Refused "Invalid mailbox format"
    else Accepted normalized.

(** [validateListType], on a string argument. *)
Definition validateListType (listType : string) : checked :=
  let validTypes := ["whitelist"; "blacklist"] in
  if negb (truthy listType) then Refused "List type is required"
  else
    let normalized := toLowerCase (trim listType) in
    if negb (array_includes validTypes normalized) then
      Refused "Invalid list type. Must be whitelist or blacklist"
    else Accepted normalized.

(** The length of the longest prefix of [s] in the language of [r], if any
    prefix is. *)
Fixpoint longest_prefix (r : regex) (s : string) : option nat :=
  match s with
  | EmptyString => if nullable r then Some 0%nat else None
  | String c s' =>
      match longest_prefix (deriv c r) s' with
      | Some k => Some (S k)
      | None => if nullable r then Some 0%nat else None
      end
  end.

(** [s.replace(/r/g, '')] for an expression that matches no empty string and
    whose match at a given start is unique (so that the engine's first match
    there is the longest one): scan from the left, delete each match, resume
    behind it.  [skip] counts the characters of the current match still to
    delete. *)
Fixpoint remove_matches (r : regex) (skip : nat) (s : string) : string :=
  match s with
  | EmptyString => EmptyString
  | String c s' =>
      match skip with
      | S k => remove_matches r k s'
      | O =>
          match longest_prefix r s with
          | Some (S k) => remove_matches r k s'
          | _ => String c (remove_matches r 0 s')
          end
      end
  end.

(** [/[<>]/] *)
Definition angle : regex := Cls (one_of "<>").

(** [/javascript:/i] *)
Definition javascript_scheme : regex := lit_i "javascript:".

(** [/on\w+\s*=/i] *)
Definition event_handler : regex :=
  Cat (lit_i "on") (Cat (plus (Cls word_char)) (Cat (Star (Cls is_space)) (chr "="))).

(** [sanitizeInput], on a string argument. *)
Definition sanitizeInput (input : string) : string :=
  if negb (truthy input) then ""
  else
    trim (remove_matches event_handler 0
            (remove_matches javascript_scheme 0
               (remove_matches angle 0 input))).

End InputChecks.

(** ** What a registry entry of the authentication routes looks like *)

Module Registry.
Import Token AuthRoutes.

(** An entry binds one mailbox to itself, and is filed under a token signed
    with the secret of the routes whose claims name that mailbox as both
    identity and target.  The four clock readings behind an issuance (two in
    [generateToken], two for the entry) are not related here. *)
Definition entry_ok (secret : string) (token : bearer) (data : token_data) : Prop :=
  email data = mailbox data /\
  exists issued expiry,
    token = jwt_sign (Payload (email data) (mailbox data) "mail_user" issued expiry) secret.

End Registry.

(** ** The per-user rate limiter ([userRateLimit] of the middleware) *)

Module RateLimit.
Import Token Middleware.

Inductive verdict : Type :=
| Passed
| Limited (r : rejection).

Definition is_passed (v : verdict) : bool :=
  match v with Passed => true | Limited _ => false end.

(** [requests.filter(time => time > windowStart)] *)
Definition recent (windowStart : Z) (requests : list Z) : list Z :=
  List.filter (fun time => (windowStart <? time)%Z) requests.

(** The loop "Clean up old entries": every user's list is filtered; a list
    left empty is deleted, another is stored back. *)
Definition cleanUp (windowStart : Z) (userRequests : gmap string (list Z))
    : gmap string (list Z) :=
  omap (fun requests =>
          let validRequests := recent windowStart requests in
          if (length validRequests =? 0)%nat then None else Some validRequests)
       userRequests.

(** The middleware [userRateLimit(maxRequests, windowMs)] returns, at clock
    [now]; [userRequests] is the [Map] of its closure, [user] is [req.user]. *)
Definition userRateLimit (maxRequests windowMs : Z) (now : Z)
    (user : option Middleware.user) (ip : string)
    (userRequests : gmap string (list Z))
    : verdict * gmap string (list Z) * list log_entry :=
  match user with
  | None => (Passed, userRequests, [])
  | Some u =>
      let userId := user_email u in
      let windowStart := (now - windowMs)%Z in
      let userRequests := cleanUp windowStart userRequests in
      let userRequestTimes := default [] (userRequests !! userId) in
      let recentRequests := recent windowStart userRequestTimes in
      if (maxRequests <=? Z.of_nat (length recentRequests))%Z then
        (Limited (Rejection 429 "error" "Too many requests, please try again later"),
         userRequests,
         [Log "warn" "User rate limit exceeded"
            [("userId", userId); ("requests", pretty (length recentRequests));
             ("ip", ip)]])
      else
        (Passed, <[userId := (recentRequests ++ [now])%list]> userRequests, [])
  end.

(** One request of an identified user, as the limiter answered it. *)
Record outcome : Type := Outcome {
  at_time : Z;
  by_user : string;
  passed : bool
}.

(** The limiter over a sequence of requests (clock and user of each, oldest
    first), starting from the counters [userRequests]; [outcomes] collects
    the answers. *)
Fixpoint run (maxRequests windowMs : Z) (history : list (Z * Middleware.user))
    (userRequests : gmap string (list Z)) (outcomes : list outcome)
    : gmap string (list Z) * list outcome :=
  match history with
  | [] => (userRequests, outcomes)
  | (now, u) :: rest =>
      let '(v, userRequests', _) :=
        userRateLimit maxRequests windowMs now (Some u) "" userRequests in
      run maxRequests windowMs rest userRequests'
        (outcomes ++ [Outcome now (user_email u) (is_passed v)])
  end.

(** The times at which the requests of one user passed. *)
Definition admitted (userId : string) (outcomes : list outcome) : list Z :=
  map at_time
    (List.filter (fun o => passed o && String.eqb (by_user o) userId) outcomes).

(** No user has more than [maxRequests] requests passed within any window:
    at each request that passed, the passed requests of its user up to and
    including it, newer than [windowMs] before it, number at most
    [maxRequests]. *)
Definition within_limit (maxRequests windowMs : Z) (outcomes : list outcome) : Prop :=
  forall (i : nat) (o : outcome),
    outcomes !! i = Some o ->
    passed o = true ->
    (Z.of_nat
       (length (recent (at_time o - windowMs)
                  (admitted (by_user o) (take (S i) outcomes))))
     <= maxRequests)%Z.

(** The clock never runs backwards over a sequence of requests. *)
Fixpoint chronological (last : Z) (history : list (Z * Middleware.user)) : bool :=
  match history with
  | [] => true
  | (now, _) :: rest => (last <=? now)%Z && chronological now rest
  end.

End RateLimit.

(** ** The adapter's parser ([parseSpamRules] of [src/unnamed/part_001]) *)

Module Adapter.
Import Js SpamRules.

(** [s.split(sep)] for a one-character separator. *)
Fixpoint split (sep : ascii) (s : string) : list string :=
  match s with
  | EmptyString => [EmptyString]
  | String c r =>
      if Ascii.eqb c sep then EmptyString :: split sep r
      else
        match split sep r with
        | first :: others => String c first :: others
        | [] => [String c EmptyString]
        end
  end.

(** Which array [currentList] points to. *)
Inductive current : Type := NoList | TheWhitelist | TheBlacklist.

Definition is_whitelist_header (trimmed : string) : bool :=
  includes trimmed "whitelist" || includes trimmed "white_list".

Definition is_blacklist_header (trimmed : string) : bool :=
  includes trimmed "blacklist" || includes trimmed "black_list".

(** The loop over the lines of the CLI output. *)
Fixpoint parseLines (lines : list string) (currentList : current)
    (whitelist blacklist : list string) : list string * list string :=
  match lines with
  | [] => (whitelist, blacklist)
  | line :: rest =>
      let trimmed := trim line in
      if is_whitelist_header trimmed then
        parseLines rest TheWhitelist whitelist blacklist
      else if is_blacklist_header trimmed then
        parseLines rest TheBlacklist whitelist blacklist
      else if truthy trimmed && negb (startsWith trimmed "#") then
        match currentList with
        | NoList => parseLines rest currentList whitelist blacklist
        | TheWhitelist => parseLines rest currentList (whitelist ++ [trimmed]) blacklist
        | TheBlacklist => parseLines rest currentList whitelist (blacklist ++ [trimmed])
        end
      else parseLines rest currentList whitelist blacklist
  end.

(** [parseSpamRules(output)]; [now] stands for [new Date().toISOString()]. *)
Definition parseSpamRules (output : string) (now : string) : rules :=
  let lines := split "010" output in
  let '(whitelist, blacklist) := parseLines lines NoList [] [] in
  Rules (List.filter (fun entry => (0 <? String.length entry)%nat) whitelist)
        (List.filter (fun entry => (0 <? String.length entry)%nat) blacklist)
        now.

(** An entry as the parser keeps it. *)
Definition clean_entry (e : string) : bool :=
  truthy e && String.eqb (trim e) e && negb (startsWith e "#")
  && negb (is_whitelist_header e) && negb (is_blacklist_header e).

End Adapter.

(** ** Whose mailbox a handler's calls concern *)

Module Scope.
Import SpamRules.

(** The mailbox an adapter call is made for. *)
Definition target (f : effect) : option string :=
  match f with
  | Logged _ => None
  | GetSpamRules m | AddSpamRule m _ _ | RemoveSpamRule m _ _ => Some m
  end.

(** Every adapter call of a trace is made for one mailbox. *)
Definition only_for (mailbox : string) (trace : list effect) : Prop :=
  Forall (fun f => match target f with Some m => m = mailbox | None => True end) trace.

End Scope.

(** * Properties *)

(** ** Strings *)

Section StringFacts.
Import Js.

Lemma lower_char_idem (c : ascii) : lower_char (lower_char c) = lower_char c.
Proof. destruct c as [[] [] [] [] [] [] [] []]; reflexivity. Qed.

Lemma is_space_lower_char (c : ascii) : is_space (lower_char c) = is_space c.
Proof. destruct c as [[] [] [] [] [] [] [] []]; reflexivity. Qed.

Lemma toLowerCase_idem (s : string) : toLowerCase (toLowerCase s) = toLowerCase s.
Proof.
  induction s as [|c s IH]; simpl; [reflexivity|].
  now rewrite lower_char_idem, IH.
Qed.

Lemma trimStart_toLowerCase (s : string) :
  trimStart (toLowerCase s) = toLowerCase (trimStart s).
Proof.
  induction s as [|c s IH]; simpl; [reflexivity|].
  rewrite is_space_lower_char. destruct (is_space c); [exact IH|reflexivity].
Qed.

Lemma trimEnd_toLowerCase (s : string) :
  trimEnd (toLowerCase s) = toLowerCase (trimEnd s).
Proof.
  induction s as [|c s IH]; simpl; [reflexivity|].
  rewrite IH, is_space_lower_char.
  destruct (trimEnd s); simpl; [destruct (is_space c)|]; reflexivity.
Qed.

Lemma trim_toLowerCase (s : string) : trim (toLowerCase s) = toLowerCase (trim s).
Proof. unfold trim. now rewrite trimStart_toLowerCase, trimEnd_toLowerCase. Qed.

Lemma trimEnd_idem (s : string) : trimEnd (trimEnd s) = trimEnd s.
Proof.
  induction s as [|c s IH]; simpl; [reflexivity|].
  destruct (trimEnd s) as [|d r] eqn:E.
  - destruct (is_space c) eqn:Hc; simpl; [reflexivity|]. now rewrite Hc.
  - change (trimEnd (String c (String d r))) with
      (match trimEnd (String d r) with
       | EmptyString => if is_space c then EmptyString else String c EmptyString
       | r' => String c r'
       end).
    now rewrite IH.
Qed.

Lemma headed_trimStart (s : string) : headed (trimStart s) = true.
Proof.
  induction s as [|c s IH]; simpl; [reflexivity|].
  destruct (is_space c) eqn:Hc; [exact IH|]. simpl. now rewrite Hc.
Qed.

Lemma trimStart_headed (s : string) : headed s = true -> trimStart s = s.
Proof.
  destruct s as [|c s]; simpl; [reflexivity|].
  destruct (is_space c); [discriminate|reflexivity].
Qed.

Lemma headed_trimEnd (s : string) : headed s = true -> headed (trimEnd s) = true.
Proof.
  destruct s as [|c s]; simpl; [reflexivity|].
  destruct (is_space c) eqn:Hc; [discriminate|]. intros _.
  destruct (trimEnd s); simpl; now rewrite Hc.
Qed.

Lemma trim_idem (s : string) : trim (trim s) = trim s.
Proof.
  unfold trim.
  rewrite (trimStart_headed (trimEnd (trimStart s))).
  - apply trimEnd_idem.
  - apply headed_trimEnd, headed_trimStart.
Qed.

(** The text [normalizeEntry] works on is a fixed point of trimming and of
    lowercasing. *)
Lemma trim_lower_trim (s : string) :
  trim (toLowerCase (trim s)) = toLowerCase (trim s).
Proof. now rewrite trim_toLowerCase, trim_idem. Qed.

Lemma startsWith_includes (s p : string) : startsWith s p = true -> includes s p = true.
Proof. destruct s; simpl; intros ->; reflexivity. Qed.

Lemma trimEnd_trim (s : string) : trimEnd (trim s) = trim s.
Proof. unfold trim. apply trimEnd_idem. Qed.

Lemma trim_at (s : string) : trimEnd s = s -> trim (String "@" s) = String "@" s.
Proof.
  intros H. unfold trim.
  change (trimStart (String "@" s)) with (String "@" s).
  simpl. rewrite H. destruct s; reflexivity.
Qed.

End StringFacts.

(** ** The validator *)

Section ValidatorFacts.
Import Js Regex Validators.

(** On a text that trimming and lowercasing leave alone, [normalizeEntry]
    is its chain of tests. *)
Lemma normalizeEntry_fixed (n : string) :
  toLowerCase (trim n) = n ->
  normalizeEntry n =
    if includes n "@" && negb (startsWith n "@") then n
    else if includes n "." && negb (includes n "@") then
      if negb (startsWith n "@") then "@" ++ n else n
    else n.
Proof.
  intros H. unfold normalizeEntry.
  destruct n as [|c n]; [reflexivity|].
  cbn [truthy negb]. cbv zeta. now rewrite H.
Qed.

Lemma lower_trim_fixed (s : string) :
  let n := toLowerCase (trim s) in toLowerCase (trim n) = n.
Proof. cbv zeta. now rewrite trim_lower_trim, toLowerCase_idem. Qed.

Lemma lower_trim_at_fixed (s : string) :
  let r := "@" ++ toLowerCase (trim s) in toLowerCase (trim r) = r.
Proof.
  cbv zeta. change ("@" ++ toLowerCase (trim s)) with (String "@" (toLowerCase (trim s))).
  rewrite trim_at.
  - cbn [toLowerCase]. now rewrite toLowerCase_idem.
  - now rewrite trimEnd_toLowerCase, trimEnd_trim.
Qed.

(** [normalizeEntry] is idempotent on every string. *)
Lemma normalizeEntry_idempotent (s : string) :
  normalizeEntry (normalizeEntry s) = normalizeEntry s.
Proof.
  destruct s as [|c s]; [reflexivity|].
  pose proof (lower_trim_fixed (String c s)) as Hn.
  pose proof (lower_trim_at_fixed (String c s)) as Hr.
  cbv zeta in Hn, Hr.
  assert (Hs : normalizeEntry (String c s) =
               let n := toLowerCase (trim (String c s)) in
               if includes n "@" && negb (startsWith n "@") then n
               else if includes n "." && negb (includes n "@") then
                 if negb (startsWith n "@") then "@" ++ n else n
               else n) by reflexivity.
  rewrite Hs. clear Hs. cbv zeta.
  set (n := toLowerCase (trim (String c s))) in *.
  destruct (includes n "@" && negb (startsWith n "@")) eqn:E1.
  - rewrite (normalizeEntry_fixed n Hn). now rewrite E1.
  - destruct (includes n "." && negb (includes n "@")) eqn:E2.
    + destruct (negb (startsWith n "@")) eqn:E3.
      * rewrite (normalizeEntry_fixed _ Hr).
        change ("@" ++ n) with (String "@" n).
        assert (Hs : startsWith (String "@" n) "@" = true) by reflexivity.
        rewrite Hs, (startsWith_includes _ _ Hs). cbn [negb andb].
        now rewrite ?andb_false_r.
      * rewrite (normalizeEntry_fixed n Hn). now rewrite E3, E1, E2.
    + rewrite (normalizeEntry_fixed n Hn). now rewrite E1, E2.
Qed.

(** C10.  For every string that the validator accepts as an Email,
    normalizing the normalized text changes nothing:
    normalize(normalize(s)) = normalize(s). *)
Theorem normalize_idempotent_on_email (s : string) :
  classify s = Some Email ->
  normalizeEntry (normalizeEntry s) = normalizeEntry s.
Proof. intros _. apply normalizeEntry_idempotent. Qed.

Lemma normalize_idempotent_on_email_witness :
  classify "  USER@Example.COM " = Some Email /\
  normalizeEntry (normalizeEntry "  USER@Example.COM ")
    = normalizeEntry "  USER@Example.COM ".
Proof.
  split; [vm_compute; reflexivity|].
  apply (normalize_idempotent_on_email "  USER@Example.COM "). vm_compute; reflexivity.
Defined.

Lemma scanDangerous_spec (patterns : list regex) (n : string) (errs : list string) :
  scanDangerous patterns n errs =
    if existsb (fun pattern => search pattern n) patterns
    then (errs ++ [err_dangerous])%list else errs.
Proof.
  induction patterns as [|p ps IH]; simpl; [reflexivity|].
  destruct (search p n); [reflexivity|exact IH].
Qed.

(** The format check appends at most one message, never the denylist's. *)
Lemma checkFormat_app (n : string) (errs : list string) :
  checkFormat n errs = (errs ++ checkFormat n [])%list.
Proof.
  unfold checkFormat.
  destruct (entryBranch n);
    repeat match goal with |- context [if ?b then _ else _] => destruct b end;
    cbn [app]; now rewrite ?app_nil_r.
Qed.

Lemma checkFormat_nil (n : string) :
  (length (checkFormat n []) <= 1)%nat /\ err_dangerous ∉ checkFormat n [].
Proof.
  unfold checkFormat.
  destruct (entryBranch n);
    repeat match goal with |- context [if ?b then _ else _] => destruct b end;
    cbn [app length]; (split; [lia|]);
    rewrite ?elem_of_cons, ?elem_of_nil; intuition discriminate.
Qed.

Lemma length_zero_empty (s : string) : (String.length s =? 0)%nat = true -> s = "".
Proof. destruct s; [reflexivity|discriminate]. Qed.

Lemma matches_Void (s : string) : matches Void s = false.
Proof. induction s as [|c s IH]; [reflexivity|exact IH]. Qed.

(** No text that begins with the domain marker passes the email grammar. *)
Lemma isValidEmail_at (s : string) : isValidEmail (String "@" s) = false.
Proof.
  unfold isValidEmail. cbn [matches].
  replace (deriv "@" emailRegex) with Void by (vm_compute; reflexivity).
  apply matches_Void.
Qed.

(** The arm headed "Domain" is never taken: a text that starts with [@]
    includes [@], and the arm before it has claimed it. *)
Lemma domain_arm_unreachable (n : string) : entryBranch n <> Domain.
Proof.
  unfold entryBranch.
  destruct (includes n "@") eqn:Hi; [discriminate|].
  destruct (startsWith n "@") eqn:Hs.
  - apply startsWith_includes in Hs. congruence.
  - destruct (includes n "*"); [discriminate|].
    destruct (isValidIP n); discriminate.
Qed.

(** Every entry with a dot and no [@], a bare domain or a dotted quad alike,
    is marked with [@] by [normalizeEntry] and then rejected. *)
Lemma dotted_entry_rejected (entry : string) :
  includes (toLowerCase (trim entry)) "." = true ->
  includes (toLowerCase (trim entry)) "@" = false ->
  normalizeEntry entry = "@" ++ toLowerCase (trim entry) /\
  isValid (validateSpamEntry entry) = false.
Proof.
  intros Hdot Hat.
  assert (Hn : normalizeEntry entry = "@" ++ toLowerCase (trim entry)).
  { unfold normalizeEntry. destruct entry as [|c r]; [discriminate Hdot|].
    cbn [truthy negb]. cbv zeta. rewrite Hat, Hdot. cbn [andb negb].
    destruct (startsWith (toLowerCase (trim (String c r))) "@") eqn:Hs; [|reflexivity].
    apply startsWith_includes in Hs. congruence. }
  split; [exact Hn|].
  unfold validateSpamEntry.
  destruct (truthy entry); [|reflexivity]. cbn [negb]. rewrite Hn.
  change ("@" ++ toLowerCase (trim entry)) with (String "@" (toLowerCase (trim entry))).
  cbn [String.length Nat.eqb].
  destruct (255 <? S (String.length (toLowerCase (trim entry))))%nat; [reflexivity|].
  cbn [isValid]. rewrite checkFormat_app.
  assert (Hf : checkFormat (String "@" (toLowerCase (trim entry))) [] = [err_email]).
  { unfold checkFormat, entryBranch.
    assert (Hs : startsWith (String "@" (toLowerCase (trim entry))) "@" = true)
      by reflexivity.
    rewrite (startsWith_includes _ _ Hs), isValidEmail_at. reflexivity. }
  rewrite Hf, length_app. cbn [length].
  destruct (length _); reflexivity.
Qed.

(** C1.  On "EXAMPLE.com" the validator does not answer valid/Domain:
    [normalizeEntry] yields "@example.com", which the domain grammar
    accepts, but the chain of [validateSpamEntry] asks [includes('@')]
    first, sends the text to the email arm, and rejects it. *)
Theorem validate_EXAMPLE_com_rejected :
  normalizeEntry "EXAMPLE.com" = "@example.com" /\
  isValidDomain "@example.com" = true /\
  entryBranch "@example.com" = EmailAddress /\
  validateSpamEntry "EXAMPLE.com"
    = Validation false [err_email] (Some "@example.com") /\
  classify "EXAMPLE.com" = None.
Proof. vm_compute. repeat split; reflexivity. Qed.

(** C3.  The dotted quad "192.168.1.1" matches the IPv4 grammar, yet the
    validator rejects it: [normalizeEntry] prefixes it with the domain
    marker, and the chain of [validateSpamEntry] sends every text with an
    [@] to the email arm, so the IP arm is never reached. *)
Theorem validate_dotted_quad_rejected :
  isValidIP "192.168.1.1" = true /\
  normalizeEntry "192.168.1.1" = "@192.168.1.1" /\
  entryBranch "@192.168.1.1" = EmailAddress /\
  validateSpamEntry "192.168.1.1"
    = Validation false [err_email] (Some "@192.168.1.1") /\
  classify "192.168.1.1" = None.
Proof. vm_compute. repeat split; reflexivity. Qed.

(** C6, as stated, fails: the script tag matches the denylist, and the
    validator answers with two errors, the second from the format check. *)
Lemma dangerous_entry_two_errors :
  dangerous (normalizeEntry "<script>alert(1)</script>") = true /\
  errors (validateSpamEntry "<script>alert(1)</script>") = [err_dangerous; err_format].
Proof. vm_compute. split; reflexivity. Qed.

(** C6, amended.  For every input whose normalized text matches at least
    one pattern of the denylist, the validator rejects, and its answer is
    fixed by the length of the text.  Above 255 characters it is the early
    return with the length error alone and no normalized text.  Up to 255
    characters the error list is the dangerous-content error, once (the scan
    stops at the first pattern that matches), followed by what the format
    check of the text's kind appends: at most one error, and never a second
    dangerous-content error. *)
Theorem dangerous_entry_errors (entry : string) :
  dangerous (normalizeEntry entry) = true ->
  let n := normalizeEntry entry in
  let tail := checkFormat n [] in
  validateSpamEntry entry
    = (if (255 <? String.length n)%nat then Validation false [err_too_long] None
       else Validation false (err_dangerous :: tail) (Some n)) /\
  (length tail <= 1)%nat /\
  err_dangerous ∉ tail.
Proof.
  intros H. cbv zeta. split; [|apply checkFormat_nil].
  unfold validateSpamEntry.
  destruct (truthy entry) eqn:T.
  2:{ destruct entry; [|discriminate T]. vm_compute in H. discriminate H. }
  cbn [negb].
  destruct (String.length (normalizeEntry entry) =? 0)%nat eqn:L0.
  { apply length_zero_empty in L0. rewrite L0 in H. vm_compute in H. discriminate H. }
  destruct (255 <? String.length (normalizeEntry entry))%nat; [reflexivity|].
  rewrite scanDangerous_spec. fold (dangerous (normalizeEntry entry)). rewrite H.
  rewrite checkFormat_app. reflexivity.
Qed.

Lemma dangerous_entry_errors_witness :
  dangerous (normalizeEntry "onclick=a@example.com") = true /\
  (let n := normalizeEntry "onclick=a@example.com" in
   let tail := checkFormat n [] in
   validateSpamEntry "onclick=a@example.com"
     = (if (255 <? String.length n)%nat then Validation false [err_too_long] None
        else Validation false (err_dangerous :: tail) (Some n)) /\
   (length tail <= 1)%nat /\
   err_dangerous ∉ tail).
Proof.
  split; [vm_compute; reflexivity|].
  apply (dangerous_entry_errors "onclick=a@example.com"). vm_compute; reflexivity.
Defined.

End ValidatorFacts.

(** ** The token registries *)

Section TokenFacts.
Import Token AuthRoutes Middleware Server.

Variable secret : string.

(** A token of [generateToken] verifies under the same secret until the
    clock reaches the [exp] it carries. *)
Lemma jwt_verify_generated (T T' : Z) (e m : string) :
  (T' / 1000 < T / 1000 + 24 * 60 * 60)%Z ->
  jwt_verify (generateToken secret T e m) secret T'
    = Some (Payload e m "mail_user" (T / 1000) (T / 1000 + 24 * 60 * 60)).
Proof.
  intros H. unfold generateToken, jwt_sign, jwt_verify. cbn [exp].
  rewrite bool_decide_eq_true_2 by reflexivity.
  apply Z.ltb_lt in H. now rewrite H.
Qed.

(** Every token a route hands out comes from [generateToken] at the clock
    of the request. *)
Lemma issued_generated (T : Z) (rq : request) (s : state) (t : bearer) :
  issued (fst (serve secret T rq s)) = Some t ->
  exists e m, t = generateToken secret T e m.
Proof.
  destruct rq as [v sid mb ok|v em pw mb ok|tok|tok|ip au]; cbn [serve].
  - unfold verifyPleskSession.
    destruct (negb (length v =? 0)%nat); [discriminate|].
    destruct ok as [[]|]; cbn; try discriminate.
    intros [= <-]. eauto.
  - unfold verifyMailbox.
    destruct (negb (length v =? 0)%nat); [discriminate|].
    destruct (negb (String.eqb em mb)); [discriminate|].
    destruct (negb ok); cbn; try discriminate.
    intros [= <-]. eauto.
  - unfold refresh.
    destruct (routes_tokenStore s !! tok) as [td|]; [|discriminate].
    destruct (expiresAt td <? T)%Z; cbn; try discriminate.
    intros [= <-]. eauto.
  - unfold logout.
    destruct (routes_tokenStore s !! tok); discriminate.
  - destruct (authenticateToken secret T ip au (middleware_tokenStore s)) as [[o st] l].
    discriminate.
Qed.

(** No request writes an entry into the registry of the middleware. *)
Lemma serve_middleware_empty (T : Z) (rq : request) (s : state) :
  middleware_tokenStore s = ∅ ->
  middleware_tokenStore (snd (serve secret T rq s)) = ∅.
Proof.
  intros H.
  destruct rq as [v sid mb ok|v em pw mb ok|tok|tok|ip au]; cbn [serve].
  - destruct (verifyPleskSession _ _ _ _ _ _ _) as [[r st] l]. exact H.
  - destruct (verifyMailbox _ _ _ _ _ _ _ _) as [[r st] l]. exact H.
  - destruct (refresh _ _ _ _) as [[r st] l]. exact H.
  - destruct (logout _ _) as [[r st] l]. exact H.
  - unfold authenticateToken. rewrite H.
    destruct au as [tok|]; [|reflexivity].
    destruct (jwt_verify tok secret T); [|reflexivity].
    rewrite lookup_empty. cbn. apply delete_empty.
Qed.

Lemma run_middleware_empty (history : list (Z * request)) (s : state) :
  middleware_tokenStore s = ∅ ->
  middleware_tokenStore (run secret history s) = ∅.
Proof.
  revert s. induction history as [|[T rq] rest IH]; intros s H; cbn [run].
  - exact H.
  - apply IH, serve_middleware_empty, H.
Qed.

(** In front of an empty registry the middleware lets nobody through. *)
Lemma authenticateToken_empty (T : Z) (ip : string) (au : option bearer) :
  exists r l, authenticateToken secret T ip au ∅ = (Respond r, ∅, l).
Proof.
  unfold authenticateToken.
  destruct au as [tok|]; [|eauto].
  destruct (jwt_verify tok secret T); [|eauto].
  rewrite lookup_empty, delete_empty. eauto.
Qed.

(** After any history, whatever is presented to a protected route, and
    whenever, the middleware answers it itself: no request reaches a
    handler. *)
Lemma no_request_passes (history : list (Z * request)) (T : Z) (ip : string)
    (au : option bearer) :
  exists r,
    fst (serve secret T (Protected ip au) (run secret history initial))
      = Guarded (Respond r).
Proof.
  cbn [serve]. rewrite run_middleware_empty by reflexivity.
  destruct (authenticateToken_empty T ip au) as (r & l & ->). eauto.
Qed.

(** C2.  Take any history of requests from the start of the process, then
    a request that hands out a token (either authentication path, or a
    refresh), then any further history.  Presented to a protected route
    before the clock reaches the expiry the token carries (24 hours after
    issuance), the token is turned away with 401 "Token expired or
    invalid": the middleware looks it up in its own registry, which no
    request fills. *)
Theorem issued_token_rejected (before after : list (Z * request))
    (T T' : Z) (rq : request) (ip : string) (t : bearer) :
  let s := run secret before initial in
  issued (fst (serve secret T rq s)) = Some t ->
  (T' / 1000 < T / 1000 + 24 * 60 * 60)%Z ->
  fst (serve secret T' (Protected ip (Some t))
         (run secret after (snd (serve secret T rq s))))
    = Guarded (Respond (Rejection 401 "error" "Token expired or invalid")).
Proof.
  cbv zeta. intros Ht Hexp.
  apply issued_generated in Ht as (e & m & ->).
  cbn [serve]. unfold authenticateToken.
  rewrite run_middleware_empty.
  2:{ apply serve_middleware_empty, run_middleware_empty. reflexivity. }
  rewrite (jwt_verify_generated _ _ _ _ Hexp), lookup_empty. reflexivity.
Qed.

End TokenFacts.

Lemma issued_token_rejected_witness :
  let secret := "k" in
  let login := Server.VerifyPleskSession [] "session-1" "a@x.com" (Some true) in
  let t := AuthRoutes.generateToken secret 1000 "a@x.com" "a@x.com" in
  let s := Server.run secret [] Server.initial in
  Server.issued (fst (Server.serve secret 1000 login s)) = Some t /\
  (5000 / 1000 < 1000 / 1000 + 24 * 60 * 60)%Z /\
  fst (Server.serve secret 5000 (Server.Protected "10.0.0.1" (Some t))
         (Server.run secret [(2000%Z, Server.Protected "10.0.0.1" (Some t))]
            (snd (Server.serve secret 1000 login s))))
    = Server.Guarded
        (Middleware.Respond (Middleware.Rejection 401 "error" "Token expired or invalid")).
Proof.
  cbv zeta.
  assert (H1 : Server.issued
                 (fst (Server.serve "k" 1000
                         (Server.VerifyPleskSession [] "session-1" "a@x.com" (Some true))
                         (Server.run "k" [] Server.initial)))
               = Some (AuthRoutes.generateToken "k" 1000 "a@x.com" "a@x.com"))
    by reflexivity.
  assert (H2 : (5000 / 1000 < 1000 / 1000 + 24 * 60 * 60)%Z) by (vm_compute; reflexivity).
  split; [exact H1|]. split; [exact H2|].
  exact (issued_token_rejected "k" [] [(2000%Z, Server.Protected "10.0.0.1"
            (Some (AuthRoutes.generateToken "k" 1000 "a@x.com" "a@x.com")))]
           1000 5000 _ "10.0.0.1" _ H1 H2).
Defined.

(** ** Refresh *)

Section RefreshFacts.
Import Token AuthRoutes.

Variable secret : string.

Lemma refresh_accepts (now : Z) (token : bearer) (store : gmap bearer token_data)
    (td : token_data) :
  store !! token = Some td ->
  (now <= expiresAt td)%Z ->
  refresh secret now token store =
    (token_reply "Token refreshed successfully"
       (generateToken secret now (email td) (mailbox td)),
     <[generateToken secret now (email td) (mailbox td) :=
         TokenData (email td) (mailbox td) now (now + day_ms)]> (delete token store),
     []).
Proof.
  intros Hreg Hlive. unfold refresh. rewrite Hreg.
  destruct (expiresAt td <? now)%Z eqn:E; [|reflexivity].
  apply Z.ltb_lt in E. lia.
Qed.

Lemma refresh_refuses (now : Z) (token : bearer) (store : gmap bearer token_data) :
  (store !! token = None \/
   exists td, store !! token = Some td /\ (expiresAt td < now)%Z) ->
  refresh secret now token store =
    (error_reply 401 "Invalid or expired token", delete token store, []).
Proof.
  intros [Habsent|(td & Hreg & Hexp)]; unfold refresh.
  - now rewrite Habsent.
  - rewrite Hreg. apply Z.ltb_lt in Hexp. now rewrite Hexp.
Qed.

(** C8.  Refresh with a token that is in the registry and has not expired
    succeeds: the old entry is deleted and a new token is registered for
    the same email and mailbox, expiring 24 hours after the refresh; the
    other entries are untouched.  Refresh with a token that is absent or
    expired is answered 401 "Invalid or expired token", and registers
    nothing. *)
Theorem refresh_outcome (now : Z) (token : bearer) (store : gmap bearer token_data) :
  (forall td,
      store !! token = Some td ->
      (now <= expiresAt td)%Z ->
      exists newToken store',
        refresh secret now token store
          = (token_reply "Token refreshed successfully" newToken, store', []) /\
        newToken = generateToken secret now (email td) (mailbox td) /\
        store' = <[newToken := TokenData (email td) (mailbox td) now (now + day_ms)]>
                   (delete token store) /\
        store' !! newToken
          = Some (TokenData (email td) (mailbox td) now (now + 24 * 60 * 60 * 1000)) /\
        (newToken <> token -> store' !! token = None) /\
        (forall other, other <> token -> other <> newToken ->
                       store' !! other = store !! other)) /\
  ((store !! token = None \/
    exists td, store !! token = Some td /\ (expiresAt td < now)%Z) ->
   refresh secret now token store
     = (error_reply 401 "Invalid or expired token", delete token store, [])).
Proof.
  split.
  - intros td Hreg Hlive.
    eexists _, _. split; [exact (refresh_accepts _ _ _ _ Hreg Hlive)|].
    split; [reflexivity|]. split; [reflexivity|].
    split; [apply lookup_insert_eq|]. split.
    + intros Hne. rewrite lookup_insert_ne by exact Hne. apply lookup_delete_eq.
    + intros other H1 H2.
      rewrite lookup_insert_ne by (intros E; apply H2; symmetry; exact E).
      apply lookup_delete_ne. intros E; apply H1; symmetry; exact E.
  - apply refresh_refuses.
Qed.

End RefreshFacts.

(** The scenario of the specification: a token issued at [T] is refreshed at
    [T + 23h]; the new token is registered until [T + 23h + 24h], and the old
    one, presented again, is refused. *)
Lemma refresh_outcome_witness :
  let secret := "k" in
  let T := 1700000000000%Z in
  let hour := (60 * 60 * 1000)%Z in
  let old := AuthRoutes.generateToken secret T "a@x.com" "a@x.com" in
  let td := Token.TokenData "a@x.com" "a@x.com" T (T + Token.day_ms) in
  let store : gmap Token.bearer Token.token_data := <[old := td]> ∅ in
  store !! old = Some td /\
  (T + 23 * hour <= Token.expiresAt td)%Z /\
  exists newToken store',
    AuthRoutes.refresh secret (T + 23 * hour) old store
      = (AuthRoutes.token_reply "Token refreshed successfully" newToken, store', []) /\
    store' !! newToken
      = Some (Token.TokenData "a@x.com" "a@x.com" (T + 23 * hour)
                (T + 23 * hour + 24 * hour)) /\
    store' !! old = None /\
    AuthRoutes.refresh secret (T + 23 * hour + 1) old store'
      = (AuthRoutes.error_reply 401 "Invalid or expired token", delete old store', []).
Proof.
  cbv zeta.
  set (T := 1700000000000%Z). set (h := (60 * 60 * 1000)%Z).
  set (old := AuthRoutes.generateToken "k" T "a@x.com" "a@x.com").
  set (td := Token.TokenData "a@x.com" "a@x.com" T (T + Token.day_ms)).
  assert (Hreg : (<[old := td]> ∅ : gmap Token.bearer Token.token_data) !! old = Some td)
    by apply lookup_insert_eq.
  assert (Hlive : (T + 23 * h <= Token.expiresAt td)%Z) by (vm_compute; discriminate).
  split; [exact Hreg|]. split; [exact Hlive|].
  destruct (refresh_outcome "k" (T + 23 * h) old (<[old := td]> ∅)) as [Hok _].
  destruct (Hok td Hreg Hlive) as (newToken & store' & Hrun & Hnew & Hst & Hlook & Hold & _).
  exists newToken, store'. split; [exact Hrun|]. split; [exact Hlook|].
  assert (Hne : newToken <> old).
  { rewrite Hnew. unfold old, AuthRoutes.generateToken, Token.jwt_sign.
    intros E. injection E as E _. vm_compute in E. discriminate E. }
  split; [exact (Hold Hne)|].
  destruct (refresh_outcome "k" (T + 23 * h + 1) old store') as [_ Hbad].
  apply Hbad. left. exact (Hold Hne).
Defined.

(** ** The rule service *)

Section RuleFacts.
Import Token Validators Middleware SpamRules.

Variable engine : Type.
Variable getSpamRules : engine -> string -> call rules.
Variable addSpamRule :
  engine -> string -> listType -> string -> call adapter_result * engine.
Variable removeSpamRule :
  engine -> string -> listType -> string -> call adapter_result * engine.

Local Abbreviation addRule := (SpamRules.addRule engine getSpamRules addSpamRule).
Local Abbreviation removeRule := (SpamRules.removeRule engine getSpamRules removeSpamRule).
Local Abbreviation getRules := (SpamRules.getRules engine getSpamRules).
Local Abbreviation bulkLoop := (SpamRules.bulkLoop engine addSpamRule removeSpamRule).
Local Abbreviation bulkOperation := (SpamRules.bulkOperation engine addSpamRule removeSpamRule).

(** *** The add handler *)

(** Whatever the request and the engine, the add handler answers 500: the
    call on the first line of its block throws, the [catch] logs the error,
    and nothing is validated, fetched or written. *)
Lemma addRule_always_fails (now : Z) (req : rule_request) (e : engine) :
  addRule now req e =
    (ErrorReply 500 "Failed to add entry" [], e,
     [Logged (Log "error" "Failed to add spam rule"
                [("error", "Cannot access 'validationResult' before initialization");
                 ("mailbox", mailbox req);
                 ("listType", listType_name (rq_listType req));
                 ("entry", entry req)])]).
Proof. reflexivity. Qed.

(** *** Ownership *)

(** [verifyOwnership] on a request that carries a non-empty mailbox. *)
Lemma verifyOwnership_carried (requested : string) (query : option string)
    (u : Middleware.user) (addr : string) :
  Js.truthy requested = true ->
  verifyOwnership (Some requested) query u addr =
    if String.eqb requested (user_mailbox u) then (Next u, [])
    else
      (Respond (Rejection 403 "error" access_denied),
       [Log "warn" "Ownership verification failed"
          [("requestedMailbox", requested); ("userMailbox", user_mailbox u);
           ("ip", addr); ("user", user_email u)]]).
Proof.
  intros Ht. unfold verifyOwnership, js_or. rewrite Ht. cbv zeta iota. rewrite Ht.
  destruct (String.eqb requested (user_mailbox u)); reflexivity.
Qed.

(** C7.  A request to add to another user's mailbox is not answered with a
    forbidden outcome and its mismatch is not logged: the add handler
    answers 500 and logs the thrown error before its ownership check is
    reached, where the remove and list handlers and [verifyOwnership] answer
    403 and log the requested and the authorized mailbox. *)
Theorem mismatched_add_not_forbidden (e : engine) :
  let principal := User "a@x.com" "a@x.com" "mail_user" in
  let single := RuleRequest [] "b@x.com" Whitelist "friend@y.com" principal "10.0.0.1" in
  let mismatch message :=
    Logged (Log "warn" message
              [("requestedMailbox", "b@x.com"); ("userMailbox", "a@x.com");
               ("ip", "10.0.0.1")]) in
  addRule 0 single e
    = (ErrorReply 500 "Failed to add entry" [], e,
       [Logged (Log "error" "Failed to add spam rule"
                  [("error", "Cannot access 'validationResult' before initialization");
                   ("mailbox", "b@x.com"); ("listType", "whitelist");
                   ("entry", "friend@y.com")])]) /\
  removeRule single e
    = (ErrorReply 403 access_denied [], e, [mismatch "Unauthorized modification attempt"]) /\
  getRules single e
    = (ErrorReply 403 access_denied [], e, [mismatch "Unauthorized access attempt"]) /\
  verifyOwnership (Some "b@x.com") None principal "10.0.0.1"
    = (Respond (Rejection 403 "error" access_denied),
       [Log "warn" "Ownership verification failed"
          [("requestedMailbox", "b@x.com"); ("userMailbox", "a@x.com");
           ("ip", "10.0.0.1"); ("user", "a@x.com")]]).
Proof. cbv zeta. repeat split; reflexivity. Qed.

(** *** Single add *)


(** *** Bulk *)

Lemma bulkOperation_malformed (mb : string) (op : operation) (e : engine) :
  well_formed op = false ->
  bulkOperation mb op e = (inr (malformed_item op), e, []).
Proof.
  unfold well_formed, SpamRules.bulkOperation. cbv zeta. now intros ->.
Qed.

Lemma bulkOperation_success (mb : string) (op : operation) (e e' : engine)
    (err : option string) :
  well_formed op = true ->
  dispatch engine addSpamRule removeSpamRule mb op e
    = (Returned (AdapterResult true err), e') ->
  bulkOperation mb op e = (inl (result_of op), e', [call_of mb op]).
Proof.
  unfold well_formed, SpamRules.bulkOperation, dispatch, call_of, result_of. cbv zeta.
  intros -> H. cbn [negb]. destruct (op_action op); now rewrite H.
Qed.

(** Whatever the adapter answers, a well-formed operation costs exactly its
    own adapter call. *)
Lemma bulkOperation_calls (mb : string) (op : operation) (e : engine) :
  snd (bulkOperation mb op e) = if well_formed op then [call_of mb op] else [].
Proof.
  unfold well_formed, SpamRules.bulkOperation, call_of. cbv zeta.
  destruct (isValid (validateSpamEntry (op_entry op))); cbn [negb]; [|reflexivity].
  destruct (op_action op).
  - destruct (addSpamRule e mb (op_listType op) (op_entry op)) as [[[[] ?]|?] ?];
      reflexivity.
  - destruct (removeSpamRule e mb (op_listType op) (op_entry op)) as [[[[] ?]|?] ?];
      reflexivity.
Qed.

(** The loop visits every operation, in order: the adapter calls it makes
    are those of the well-formed operations, in input order, whether they
    succeed or fail, and every operation leaves one item in [results] or in
    [errors]. *)
Lemma bulkLoop_visits_all (mb : string) (ops : list operation) (e : engine)
    (rs : list bulk_result) (es : list bulk_error) (tr : list effect) :
  let '(rs', es', _, tr') := bulkLoop mb ops e rs es tr in
  tr' = (tr ++ map (call_of mb) (List.filter well_formed ops))%list /\
  (length rs' + length es' = length rs + length es + length ops)%nat.
Proof.
  revert e rs es tr. induction ops as [|op rest IH]; intros e rs es tr; cbn [SpamRules.bulkLoop].
  - cbn. rewrite app_nil_r. split; [reflexivity|lia].
  - pose proof (bulkOperation_calls mb op e) as Hc.
    destruct (bulkOperation mb op e) as [[item e1] called]. cbn [snd] in Hc. subst called.
    destruct item as [r|x].
    + specialize (IH e1 (rs ++ [r])%list es
                    (tr ++ (if well_formed op then [call_of mb op] else []))%list).
      destruct (bulkLoop mb rest e1 _ _ _) as [[[rs' es'] e2] tr'].
      destruct IH as [-> Hn]. rewrite length_app in Hn. cbn [length List.filter] in *.
      split; [|lia].
      destruct (well_formed op); cbn [map]; now rewrite <- app_assoc.
    + specialize (IH e1 rs (es ++ [x])%list
                    (tr ++ (if well_formed op then [call_of mb op] else []))%list).
      destruct (bulkLoop mb rest e1 _ _ _) as [[[rs' es'] e2] tr'].
      destruct IH as [-> Hn]. rewrite length_app in Hn. cbn [length List.filter] in *.
      split; [|lia].
      destruct (well_formed op); cbn [map]; now rewrite <- app_assoc.
Qed.

(** Three operations, the second malformed, the adapter succeeding on the
    other two: two results, one error that names the malformed entry, and
    the first and third operations carried out. *)
Lemma bulkLoop_second_malformed (mb : string) (op1 op2 op3 : operation)
    (e e1 e3 : engine) (err1 err3 : option string) :
  well_formed op1 = true -> well_formed op2 = false -> well_formed op3 = true ->
  dispatch engine addSpamRule removeSpamRule mb op1 e
    = (Returned (AdapterResult true err1), e1) ->
  dispatch engine addSpamRule removeSpamRule mb op3 e1
    = (Returned (AdapterResult true err3), e3) ->
  bulkLoop mb [op1; op2; op3] e [] [] []
    = ([result_of op1; result_of op3], [malformed_item op2], e3,
       [call_of mb op1; call_of mb op3]).
Proof.
  intros W1 W2 W3 D1 D3. cbn [SpamRules.bulkLoop].
  rewrite (bulkOperation_success _ _ _ _ _ W1 D1).
  rewrite (bulkOperation_malformed _ _ _ W2).
  rewrite (bulkOperation_success _ _ _ _ _ W3 D3).
  reflexivity.
Qed.

(** C9.  The [try] block of the bulk handler declares [errors] twice, so the
    routes module is refused when it is loaded and no bulk request is
    served; read with the two variables apart, the loop would do what the
    claim says ([bulkLoop_second_malformed], [bulkLoop_visits_all]). *)
Theorem bulk_handler_not_loadable (e : engine) :
  let principal := User "a@x.com" "a@x.com" "mail_user" in
  let batch :=
    BulkRequest [] "a@x.com"
      [Operation Add Whitelist "one@y.com"; Operation Add Whitelist "<script>";
       Operation Remove Blacklist "three@y.com"] principal "10.0.0.1" in
  redeclares bulk_declarations = true /\
  bulk_as_written engine addSpamRule removeSpamRule batch e = None.
Proof. cbv zeta. split; reflexivity. Qed.

End RuleFacts.

(** ** The rule service over the reference engine *)

Section Scenarios.
Import Validators Middleware SpamRules.

(** C4.  Add, then add again: neither call is answered as the claim says.
    The first add of a valid entry fails with 500 and calls no adapter
    operation; and on a list that already holds the entry, the add is
    answered 500 again, not 409: the duplicate check of the handler is never
    reached.  Across the two calls the adapter's add is invoked not once but
    never. *)
Theorem repeated_add_never_conflicts :
  let principal := User "a@x.com" "a@x.com" "mail_user" in
  let req := RuleRequest [] "a@x.com" Whitelist "friend@y.com" principal "10.0.0.1" in
  let failed := ErrorReply 500 "Failed to add entry" [] in
  let holding : MemoryEngine.engine := [("a@x.com", Whitelist, "friend@y.com")] in
  isValid (validateSpamEntry (entry req)) = true /\
  fst (MemoryEngine.addRule 1000 req []) = (failed, []) /\
  MemoryEngine.getSpamRules holding "a@x.com" = Returned (Rules ["friend@y.com"] [] "") /\
  fst (MemoryEngine.addRule 2000 req holding) = (failed, holding) /\
  List.filter is_add
    (snd (MemoryEngine.addRule 1000 req []) ++ snd (MemoryEngine.addRule 2000 req holding))
    = [].
Proof. cbv zeta. split; [vm_compute; reflexivity|]. repeat split; reflexivity. Qed.

End Scenarios.

(** ** Regular expressions: what a match tells *)

Section LanguageFacts.
Import Js Regex Language.

Lemma nullable_Matches (r : regex) : nullable r = true -> Matches r "".
Proof.
  induction r as [| |p|a IHa b IHb|a IHa b IHb|a IHa]; cbn; intros H;
    try discriminate H.
  - constructor.
  - apply andb_true_iff in H as [Ha Hb].
    exact (MCat a b "" "" (IHa Ha) (IHb Hb)).
  - apply orb_true_iff in H as [Ha|Hb]; [apply MAltL|apply MAltR]; auto.
  - constructor.
Qed.

Lemma Matches_Void (s : string) : ~ Matches Void s.
Proof. intros H; inversion H. Qed.

Lemma cat_Matches (a b : regex) (s : string) :
  Matches (cat a b) s -> Matches (Cat a b) s.
Proof.
  assert (HEps : forall b', Matches b' s -> Matches (Cat Eps b') s).
  { intros b' H. exact (MCat Eps b' "" s MEps H). }
  destruct a, b; cbn; intros H;
    solve [exact H | apply HEps; exact H | exfalso; exact (Matches_Void _ H)].
Qed.

Lemma alt_Matches (a b : regex) (s : string) :
  Matches (alt a b) s -> Matches (Alt a b) s.
Proof.
  destruct a, b; cbn; intros H;
    solve [exact H | apply MAltR; exact H | apply MAltL; exact H].
Qed.

Lemma deriv_Matches (r : regex) (c : ascii) (s : string) :
  Matches (deriv c r) s -> Matches r (String c s).
Proof.
  revert s. induction r as [| |p|a IHa b IHb|a IHa b IHb|a IHa]; cbn; intros s H.
  - inversion H.
  - inversion H.
  - destruct (p c) eqn:Hp; inversion H; subst. now constructor.
  - destruct (nullable a) eqn:Hn.
    + apply alt_Matches in H. inversion H as [| | | ? ? ? H1 | ? ? ? H1 | |]; subst.
      * apply cat_Matches in H1. inversion H1 as [| |? ? u v Hu Hv| | | |]; subst.
        exact (MCat a b (String c u) v (IHa _ Hu) Hv).
      * exact (MCat a b "" (String c s) (nullable_Matches a Hn) (IHb _ H1)).
    + apply cat_Matches in H. inversion H as [| |? ? u v Hu Hv| | | |]; subst.
      exact (MCat a b (String c u) v (IHa _ Hu) Hv).
  - apply alt_Matches in H. inversion H; subst; [apply MAltL|apply MAltR]; auto.
  - apply cat_Matches in H. inversion H as [| |? ? u v Hu Hv| | | |]; subst.
    exact (MStarS a (String c u) v (IHa _ Hu) Hv).
Qed.

(** A string the matcher accepts is in the language of the expression. *)
Lemma matches_sound (r : regex) (s : string) : matches r s = true -> Matches r s.
Proof.
  revert r. induction s as [|c s IH]; cbn; intros r H.
  - now apply nullable_Matches.
  - apply deriv_Matches, IH, H.
Qed.

Lemma all_chars_app (P : ascii -> bool) (s t : string) :
  all_chars P (s ++ t) = all_chars P s && all_chars P t.
Proof.
  induction s as [|c s IH]; [reflexivity|].
  change (String c s ++ t) with (String c (s ++ t)). cbn [all_chars].
  now rewrite IH, andb_assoc.
Qed.

Lemma all_chars_impl (P Q : ascii -> bool) (s : string) :
  (forall c, P c = true -> Q c = true) ->
  all_chars P s = true -> all_chars Q s = true.
Proof.
  intros HPQ. induction s as [|c s IH]; cbn; [reflexivity|].
  intros H. apply andb_true_iff in H as [Hc Hs].
  now rewrite (HPQ _ Hc), (IH Hs).
Qed.

(** A matched string is written in the alphabet of the expression. *)
Lemma Matches_alphabet (r : regex) (s : string) :
  Matches r s -> all_chars (alphabet r) s = true.
Proof.
  induction 1 as [|p c Hp|a b s t _ IHs _ IHt|a b s _ IH|a b s _ IH|a|a s t _ IHs _ IHt];
    cbn [alphabet]; cbn [all_chars].
  - reflexivity.
  - now rewrite Hp.
  - rewrite all_chars_app. apply andb_true_iff. split.
    + revert IHs. apply all_chars_impl. intros c ->. reflexivity.
    + revert IHt. apply all_chars_impl. intros c ->. apply orb_true_r.
  - revert IH. apply all_chars_impl. intros c ->. reflexivity.
  - revert IH. apply all_chars_impl. intros c ->. apply orb_true_r.
  - reflexivity.
  - rewrite all_chars_app. apply andb_true_iff. split.
    + revert IHs. apply all_chars_impl. intros c H. exact H.
    + revert IHt. apply all_chars_impl. intros c H. exact H.
Qed.

Lemma Matches_chr (c : ascii) (s : string) : Matches (chr c) s -> s = String c "".
Proof.
  unfold chr. intros H. inversion H as [|p x Hx| | | | |]; subst.
  apply Ascii.eqb_eq in Hx. now subst.
Qed.

Lemma Matches_lit (l s : string) : Matches (lit l) s -> s = l.
Proof.
  revert s. induction l as [|c l IH]; cbn; intros s H.
  - now inversion H.
  - inversion H as [| |? ? u v Hu Hv| | | |]; subst.
    apply Matches_chr in Hu. apply IH in Hv. now subst.
Qed.

Lemma includes_char_app (s t : string) (c : ascii) :
  includes (s ++ t) (String c "") = includes s (String c "") || includes t (String c "").
Proof.
  induction s as [|b s IH]; [reflexivity|].
  change (String b s ++ t) with (String b (s ++ t)).
  cbn [includes startsWith]. rewrite IH.
  destruct (Ascii.eqb c b); cbn [andb orb]; reflexivity.
Qed.

Lemma includes_char_cons (b c : ascii) (s : string) :
  includes (String b s) (String c "") = Ascii.eqb c b || includes s (String c "").
Proof. cbn [includes startsWith]. now rewrite andb_true_r. Qed.

Lemma all_chars_excludes (P : ascii -> bool) (c : ascii) (s : string) :
  P c = false -> all_chars P s = true -> includes s (String c "") = false.
Proof.
  intros Hc. induction s as [|b s IH]; [reflexivity|].
  cbn [all_chars]. intros H. apply andb_true_iff in H as [Hb Hs].
  rewrite includes_char_cons, (IH Hs), orb_false_r.
  apply Ascii.eqb_neq. intros ->. congruence.
Qed.

Lemma all_chars_trim (s : string) :
  all_chars (fun c => negb (is_space c)) s = true -> trim s = s.
Proof.
  intros H. unfold trim.
  assert (Hs : trimStart s = s).
  { destruct s as [|c s]; [reflexivity|]. cbn in *.
    destruct (is_space c); [discriminate|reflexivity]. }
  rewrite Hs. clear Hs.
  induction s as [|c s IH]; [reflexivity|].
  cbn [all_chars] in H. apply andb_true_iff in H as [Hc Hr].
  cbn [trimEnd]. rewrite (IH Hr).
  destruct s; [|reflexivity]. destruct (is_space c); [discriminate|reflexivity].
Qed.

Lemma all_chars_toLowerCase (s : string) :
  all_chars (fun c => negb (is_upper c)) s = true -> toLowerCase s = s.
Proof.
  induction s as [|c s IH]; [reflexivity|].
  cbn [all_chars toLowerCase]. intros H. apply andb_true_iff in H as [Hc Hr].
  rewrite (IH Hr). unfold lower_char. destruct (is_upper c); [discriminate|reflexivity].
Qed.

End LanguageFacts.

(** ** The validator: what it accepts *)

Section AcceptedEntries.
Import Js Regex Language Validators.

(** What an accepted entry has gone through. *)
Lemma validate_accepted_inv (entry : string) :
  isValid (validateSpamEntry entry) = true ->
  validateSpamEntry entry = Validation true [] (Some (normalizeEntry entry)) /\
  (1 <= String.length (normalizeEntry entry) <= 255)%nat /\
  dangerous (normalizeEntry entry) = false /\
  checkFormat (normalizeEntry entry) [] = [].
Proof.
  unfold validateSpamEntry.
  destruct (truthy entry); cbn [negb]; [|discriminate].
  destruct (String.length (normalizeEntry entry) =? 0)%nat eqn:L0; [discriminate|].
  destruct (255 <? String.length (normalizeEntry entry))%nat eqn:L1; [discriminate|].
  cbn [isValid]. rewrite scanDangerous_spec. fold (dangerous (normalizeEntry entry)).
  rewrite checkFormat_app.
  destruct (dangerous (normalizeEntry entry)); [discriminate|].
  cbn [app].
  destruct (checkFormat (normalizeEntry entry) []) as [|x xs]; [|discriminate].
  intros _. apply Nat.eqb_neq in L0. apply Nat.ltb_ge in L1.
  repeat split; [lia|exact L1].
Qed.

Lemma lower_trim_fixed_both (r : string) :
  toLowerCase (trim r) = r -> trim r = r /\ toLowerCase r = r.
Proof.
  intros H. split.
  - rewrite <- H at 1. rewrite trim_lower_trim. exact H.
  - rewrite <- H at 1. rewrite toLowerCase_idem. exact H.
Qed.

Lemma normalizeEntry_lower_trim (entry : string) :
  toLowerCase (trim (normalizeEntry entry)) = normalizeEntry entry.
Proof.
  unfold normalizeEntry. destruct (truthy entry); cbn [negb]; [|reflexivity].
  cbv zeta.
  destruct (_ && negb (startsWith _ "@")); [apply lower_trim_fixed|].
  destruct (_ && negb (includes _ "@")); [|apply lower_trim_fixed].
  destruct (negb _); [apply lower_trim_at_fixed|apply lower_trim_fixed].
Qed.

(** A normalized text without [@] has no dot: the dotted ones were marked. *)
Lemma normalizeEntry_no_at_no_dot (entry : string) :
  includes (normalizeEntry entry) "@" = false ->
  includes (normalizeEntry entry) "." = false.
Proof.
  unfold normalizeEntry. destruct (truthy entry); cbn [negb]; [|reflexivity].
  cbv zeta. set (n := toLowerCase (trim entry)).
  destruct (includes n "@") eqn:Hat; cbn [andb].
  - destruct (negb (startsWith n "@")); cbn [negb andb]; rewrite ?andb_false_r;
      intros H; congruence.
  - destruct (includes n ".") eqn:Hdot; cbn [andb negb]; [|intros _; exact Hdot].
    destruct (startsWith n "@") eqn:Hs.
    + apply startsWith_includes in Hs. congruence.
    + cbn [negb]. change ("@" ++ n) with (String "@" n).
      rewrite includes_char_cons. discriminate.
Qed.

(** An address of the IPv4 grammar has a dot and is made of digits and dots. *)
Lemma ipv4_shape (s : string) :
  isValidIPv4 s = true ->
  includes s "." = true /\
  all_chars (fun c => is_digit c || Ascii.eqb c ".") s = true.
Proof.
  intros H. apply matches_sound in H. split.
  - unfold ipv4Regex in H. cbn [times] in H.
    inversion H as [| |? ? u v Hu _| | | |]; subst.
    inversion Hu as [| |? ? u1 u2 Hu1 _| | | |]; subst.
    inversion Hu1 as [| |? ? o d _ Hd| | | |]; subst.
    apply Matches_chr in Hd. subst.
    rewrite !includes_char_app. cbn. now rewrite ?orb_true_r.
  - apply Matches_alphabet in H. revert H. apply all_chars_impl.
    intros c. destruct c as [[] [] [] [] [] [] [] []]; vm_compute; congruence.
Qed.

(** A text of the wildcard grammar that has a star has a dot or an [@]. *)
Lemma wildcard_star (n : string) :
  isValidWildcard n = true ->
  includes n "*" = true ->
  includes n "." = true \/ includes n "@" = true.
Proof.
  intros H Hstar. apply matches_sound in H. unfold wildcardRegex in H.
  inversion H as [| | |? ? ? H1|? ? ? H1| |]; subst.
  - inversion H1 as [| |? ? u v Hu Hv| | | |]; subst.
    inversion Hu as [| | |? ? ? H2|? ? ? H2| |]; subst.
    + inversion H2; subst. change ("" ++ v) with v in Hstar.
      apply Matches_alphabet in Hv.
      rewrite (all_chars_excludes (alphabet labels) "*" v) in Hstar;
        [discriminate|vm_compute; reflexivity|exact Hv].
    + apply (Matches_lit "*.") in H2. subst. left. reflexivity.
  - right.
    inversion H1 as [| |? ? u v _ Hv| | | |]; subst.
    inversion Hv as [| |? ? a b Ha _| | | |]; subst.
    apply Matches_chr in Ha. subst.
    rewrite !includes_char_app. cbn. now rewrite ?orb_true_r.
Qed.

(** An accepted entry is free of the denylist, between 1 and 255 characters
    long once normalized, and comes back with its normalized text and no
    error. *)
Theorem accepted_entry_is_safe (entry : string) :
  isValid (validateSpamEntry entry) = true ->
  normalized (validateSpamEntry entry) = Some (normalizeEntry entry) /\
  errors (validateSpamEntry entry) = [] /\
  (1 <= String.length (normalizeEntry entry) <= 255)%nat /\
  dangerous (normalizeEntry entry) = false.
Proof.
  intros H. apply validate_accepted_inv in H as (-> & Hlen & Hd & _).
  repeat split; try assumption; lia.
Qed.

Lemma accepted_entry_is_safe_witness :
  isValid (validateSpamEntry " Friend@Example.COM ") = true /\
  (normalized (validateSpamEntry " Friend@Example.COM ")
     = Some (normalizeEntry " Friend@Example.COM ") /\
   errors (validateSpamEntry " Friend@Example.COM ") = [] /\
   (1 <= String.length (normalizeEntry " Friend@Example.COM ") <= 255)%nat /\
   dangerous (normalizeEntry " Friend@Example.COM ") = false).
Proof.
  split; [vm_compute; reflexivity|].
  apply (accepted_entry_is_safe " Friend@Example.COM "). vm_compute; reflexivity.
Defined.

(** Whatever the input, the text [normalizeEntry] returns has no blank at
    either end and no uppercase letter. *)
Theorem normalized_text_trimmed_lowercase (entry : string) :
  trim (normalizeEntry entry) = normalizeEntry entry /\
  toLowerCase (normalizeEntry entry) = normalizeEntry entry.
Proof. apply lower_trim_fixed_both, normalizeEntry_lower_trim. Qed.

Lemma marked_entry_rejected (entry : string) :
  startsWith (toLowerCase (trim entry)) "@" = true ->
  isValid (validateSpamEntry entry) = false.
Proof.
  intros Hs.
  destruct (isValid (validateSpamEntry entry)) eqn:Hv; [|reflexivity].
  apply validate_accepted_inv in Hv as (_ & _ & _ & Hf).
  assert (Hn : normalizeEntry entry = toLowerCase (trim entry)).
  { unfold normalizeEntry. destruct (truthy entry) eqn:T; cbn [negb].
    - cbv zeta. rewrite Hs, (startsWith_includes _ _ Hs). cbn [negb andb].
      now rewrite andb_false_r.
    - destruct entry; [discriminate Hs|discriminate T]. }
  rewrite Hn in Hf. destruct (toLowerCase (trim entry)) as [|c r]; [discriminate Hs|].
  cbn [startsWith] in Hs. apply andb_true_iff in Hs as [Hc _].
  apply Ascii.eqb_eq in Hc. subst c.
  unfold checkFormat, entryBranch in Hf.
  rewrite includes_char_cons in Hf. cbn [Ascii.eqb orb] in Hf.
  replace (Ascii.eqb "@" "@") with true in Hf by reflexivity. cbn [orb] in Hf.
  rewrite isValidEmail_at in Hf. discriminate Hf.
Qed.

(** Domains are never accepted in their documented forms: an entry whose
    text starts with the marker [@], and an entry with a dot and no [@]
    (which [normalizeEntry] marks), are both rejected. *)
Theorem domain_entries_rejected (entry : string) :
  startsWith (toLowerCase (trim entry)) "@" = true \/
  (includes (toLowerCase (trim entry)) "." = true /\
   includes (toLowerCase (trim entry)) "@" = false) ->
  isValid (validateSpamEntry entry) = false.
Proof.
  intros [H|[Hdot Hat]].
  - now apply marked_entry_rejected.
  - now apply dotted_entry_rejected.
Qed.

Lemma domain_entries_rejected_witness :
  (startsWith (toLowerCase (trim "@example.com")) "@" = true \/
   (includes (toLowerCase (trim "@example.com")) "." = true /\
    includes (toLowerCase (trim "@example.com")) "@" = false)) /\
  isValid (validateSpamEntry "@example.com") = false.
Proof.
  assert (H : startsWith (toLowerCase (trim "@example.com")) "@" = true \/
              (includes (toLowerCase (trim "@example.com")) "." = true /\
               includes (toLowerCase (trim "@example.com")) "@" = false))
    by (left; vm_compute; reflexivity).
  split; [exact H|]. exact (domain_entries_rejected "@example.com" H).
Defined.

(** No address of the IPv4 grammar is accepted: each is marked with [@] and
    rejected as a malformed e-mail address. *)
Theorem ipv4_address_rejected (ip : string) :
  isValidIPv4 ip = true ->
  normalizeEntry ip = "@" ++ ip /\
  isValid (validateSpamEntry ip) = false.
Proof.
  intros H. apply ipv4_shape in H as [Hdot Hchars].
  assert (Ht : trim ip = ip).
  { apply all_chars_trim. revert Hchars. apply all_chars_impl.
    intros c. destruct c as [[] [] [] [] [] [] [] []]; vm_compute; congruence. }
  assert (Hl : toLowerCase ip = ip).
  { apply all_chars_toLowerCase. revert Hchars. apply all_chars_impl.
    intros c. destruct c as [[] [] [] [] [] [] [] []]; vm_compute; congruence. }
  assert (Hat : includes ip "@" = false).
  { apply (all_chars_excludes _ "@" ip) in Hchars; [exact Hchars|reflexivity]. }
  destruct (dotted_entry_rejected ip) as [Hn Hv].
  - now rewrite Ht, Hl.
  - now rewrite Ht, Hl.
  - rewrite Ht, Hl in Hn. split; assumption.
Qed.

Lemma ipv4_address_rejected_witness :
  isValidIPv4 "10.0.0.255" = true /\
  (normalizeEntry "10.0.0.255" = "@" ++ "10.0.0.255" /\
   isValid (validateSpamEntry "10.0.0.255") = false).
Proof.
  split; [vm_compute; reflexivity|].
  apply (ipv4_address_rejected "10.0.0.255"). vm_compute; reflexivity.
Defined.

(** No entry is ever accepted through the wildcard arm. *)
Theorem no_wildcard_accepted (entry : string) : classify entry <> Some Wildcard.
Proof.
  unfold classify.
  destruct (isValid (validateSpamEntry entry)) eqn:Hv; [|discriminate].
  apply validate_accepted_inv in Hv as (-> & _ & _ & Hf). cbn [normalized].
  pose proof (normalizeEntry_no_at_no_dot entry) as Hnd.
  set (n := normalizeEntry entry) in *.
  unfold checkFormat in Hf. unfold entryBranch in *.
  destruct (includes n "@") eqn:Hat; [discriminate|].
  destruct (startsWith n "@"); [discriminate|].
  destruct (includes n "*") eqn:Hstar.
  - destruct (isValidWildcard n) eqn:Hw; [|discriminate Hf].
    destruct (wildcard_star n Hw Hstar) as [Hd|Ha]; [|congruence].
    rewrite Hnd in Hd by reflexivity. discriminate Hd.
  - destruct (isValidIP n); discriminate.
Qed.

(** The entries the validator accepts: e-mail addresses, and texts with
    neither [@] nor dot that are an IPv6 literal of the supported shapes or a
    single host label. *)
Theorem accepted_entry_shape (entry : string) :
  isValid (validateSpamEntry entry) = true ->
  let n := normalizeEntry entry in
  isValidEmail n = true \/
  (includes n "@" = false /\ includes n "." = false /\
   (isValidIPv6 n = true \/ isValidDomain ("@" ++ n) = true)).
Proof.
  intros Hv. cbv zeta.
  apply validate_accepted_inv in Hv as (_ & _ & _ & Hf).
  pose proof (normalizeEntry_no_at_no_dot entry) as Hnd.
  set (n := normalizeEntry entry) in *.
  unfold checkFormat, entryBranch in Hf.
  destruct (includes n "@") eqn:Hat.
  { left. destruct (isValidEmail n); [reflexivity|discriminate Hf]. }
  right. specialize (Hnd eq_refl). split; [reflexivity|]. split; [exact Hnd|].
  destruct (startsWith n "@") eqn:Hs.
  { apply startsWith_includes in Hs. congruence. }
  destruct (includes n "*") eqn:Hstar.
  { destruct (isValidWildcard n) eqn:Hw; [|discriminate Hf].
    destruct (wildcard_star n Hw Hstar); congruence. }
  destruct (isValidIP n) eqn:Hip.
  - left. unfold isValidIP in Hip. apply orb_true_iff in Hip as [H4|H6]; [|exact H6].
    apply ipv4_shape in H4 as [Hd _]. congruence.
  - right. destruct (isValidDomain ("@" ++ n)); [reflexivity|discriminate Hf].
Qed.

Lemma accepted_entry_shape_witness :
  isValid (validateSpamEntry "MailHost") = true /\
  (let n := normalizeEntry "MailHost" in
   isValidEmail n = true \/
   (includes n "@" = false /\ includes n "." = false /\
    (isValidIPv6 n = true \/ isValidDomain ("@" ++ n) = true))).
Proof.
  split; [vm_compute; reflexivity|].
  apply (accepted_entry_shape "MailHost"). vm_compute; reflexivity.
Defined.

End AcceptedEntries.

(** ** Mailbox, list type and sanitizer *)

Section InputCheckFacts.
Import Js Regex Language Validators InputChecks.

(** An accepted mailbox comes back trimmed and lowercased, passes the e-mail
    grammar, and is accepted unchanged when validated again. *)
Theorem validateMailbox_stable (mailbox n : string) :
  validateMailbox mailbox = Accepted n ->
  n = toLowerCase (trim mailbox) /\
  isValidEmail n = true /\
  validateMailbox n = Accepted n.
Proof.
  unfold validateMailbox at 1.
  destruct (truthy mailbox); cbn [negb]; [|discriminate]. cbv zeta.
  destruct (isValidEmail (toLowerCase (trim mailbox))) eqn:He; cbn [negb]; [|discriminate].
  intros [= <-]. split; [reflexivity|]. split; [exact He|].
  assert (Ht : truthy (toLowerCase (trim mailbox)) = true).
  { destruct (toLowerCase (trim mailbox)); [discriminate He|reflexivity]. }
  unfold validateMailbox. rewrite Ht. cbn [negb]. cbv zeta.
  rewrite (lower_trim_fixed mailbox), He. reflexivity.
Qed.

Lemma validateMailbox_stable_witness :
  validateMailbox "  Owner@Example.COM " = Accepted "owner@example.com" /\
  ("owner@example.com" = toLowerCase (trim "  Owner@Example.COM ") /\
   isValidEmail "owner@example.com" = true /\
   validateMailbox "owner@example.com" = Accepted "owner@example.com").
Proof.
  split; [vm_compute; reflexivity|].
  apply (validateMailbox_stable "  Owner@Example.COM "). vm_compute; reflexivity.
Defined.

(** An accepted list type comes back as one of the two list names, whatever
    the case and the surrounding blanks of the input, and is accepted
    unchanged when validated again. *)
Theorem validateListType_stable (listType n : string) :
  validateListType listType = Accepted n ->
  (n = "whitelist" \/ n = "blacklist") /\
  validateListType n = Accepted n.
Proof.
  unfold validateListType at 1.
  destruct (truthy listType); cbn [negb]; [|discriminate]. cbv zeta.
  destruct (array_includes _ (toLowerCase (trim listType))) eqn:Hin; cbn [negb];
    [|discriminate].
  intros [= <-]. unfold array_includes in Hin. cbn [existsb] in Hin.
  rewrite orb_false_r in Hin. apply orb_true_iff in Hin as [H|H];
    apply String.eqb_eq in H; rewrite H; (split; [auto|vm_compute; reflexivity]).
Qed.

Lemma validateListType_stable_witness :
  validateListType " BlackList " = Accepted "blacklist" /\
  (("blacklist" = "whitelist" \/ "blacklist" = "blacklist") /\
   validateListType "blacklist" = Accepted "blacklist").
Proof.
  split; [vm_compute; reflexivity|].
  apply (validateListType_stable " BlackList "). vm_compute; reflexivity.
Defined.

Lemma longest_prefix_Void (s : string) : longest_prefix Void s = None.
Proof. induction s as [|c s IH]; cbn; [reflexivity|]. now rewrite IH. Qed.

Lemma longest_prefix_Eps (s : string) : longest_prefix Eps s = Some 0%nat.
Proof. destruct s; cbn; [reflexivity|]. now rewrite longest_prefix_Void. Qed.

Lemma remove_angle_clean (s : string) :
  all_chars (fun c => negb (one_of "<>" c)) (remove_matches angle 0 s) = true.
Proof.
  induction s as [|c s IH]; [reflexivity|].
  cbn [remove_matches longest_prefix]. unfold angle at 1. cbn [deriv nullable].
  destruct (one_of "<>" c) eqn:Hc.
  - rewrite longest_prefix_Eps. exact IH.
  - rewrite longest_prefix_Void. cbn [all_chars]. cbv beta.
    apply andb_true_iff. split; [|exact IH]. now rewrite Hc.
Qed.

(** Deleting matches only deletes. *)
Lemma remove_matches_chars (P : ascii -> bool) (r : regex) (skip : nat) (s : string) :
  all_chars P s = true -> all_chars P (remove_matches r skip s) = true.
Proof.
  revert skip. induction s as [|c s IH]; intros skip H; [reflexivity|].
  cbn [all_chars] in H. apply andb_true_iff in H as [Hc Hs].
  cbn [remove_matches]. destruct skip as [|k]; [|now apply IH].
  destruct (longest_prefix r (String c s)) as [[|k]|].
  - cbn [all_chars]. now rewrite Hc, IH.
  - now apply IH.
  - cbn [all_chars]. now rewrite Hc, IH.
Qed.

Lemma trimStart_chars (P : ascii -> bool) (s : string) :
  all_chars P s = true -> all_chars P (trimStart s) = true.
Proof.
  induction s as [|c s IH]; [reflexivity|].
  intros H. cbn [trimStart]. destruct (is_space c); [|exact H].
  cbn [all_chars] in H. apply andb_true_iff in H as [_ Hs]. now apply IH.
Qed.

Lemma trimEnd_chars (P : ascii -> bool) (s : string) :
  all_chars P s = true -> all_chars P (trimEnd s) = true.
Proof.
  induction s as [|c s IH]; [reflexivity|].
  cbn [all_chars]. intros H. apply andb_true_iff in H as [Hc Hs].
  cbn [trimEnd]. specialize (IH Hs).
  destruct (trimEnd s) as [|d r].
  - destruct (is_space c); cbn [all_chars]; now rewrite ?Hc.
  - cbn [all_chars] in *. now rewrite Hc, IH.
Qed.

(** Whatever the input, the text [sanitizeInput] returns has no angle
    bracket and no blank at either end. *)
Theorem sanitizeInput_clean (input : string) :
  includes (sanitizeInput input) "<" = false /\
  includes (sanitizeInput input) ">" = false /\
  trim (sanitizeInput input) = sanitizeInput input.
Proof.
  assert (H : all_chars (fun c => negb (one_of "<>" c)) (sanitizeInput input) = true).
  { unfold sanitizeInput. destruct (truthy input); cbn [negb]; [|reflexivity].
    unfold trim. apply trimEnd_chars, trimStart_chars.
    do 2 apply remove_matches_chars. apply remove_angle_clean. }
  split; [|split].
  - apply (all_chars_excludes _ "<" _) in H; [exact H|reflexivity].
  - apply (all_chars_excludes _ ">" _) in H; [exact H|reflexivity].
  - unfold sanitizeInput. destruct (truthy input); cbn [negb]; [|reflexivity].
    apply trim_idem.
Qed.

End InputCheckFacts.

(** ** The registry of the authentication routes *)

Section RegistryFacts.
Import Token AuthRoutes Middleware Server Registry.

Variable secret : string.

(** Logout always answers success and leaves the token unregistered; a
    second logout changes nothing, a refresh with the token is then refused,
    and the other entries are untouched. *)
Theorem logout_revokes (now : Z) (token : bearer) (store : gmap bearer token_data) :
  let done := Reply 200 "success" "Logged out successfully" None None in
  (exists l, logout token store = (done, delete token store, l)) /\
  logout token (delete token store) = (done, delete token store, []) /\
  refresh secret now token (delete token store)
    = (error_reply 401 "Invalid or expired token", delete token store, []) /\
  (forall other, other <> token -> delete token store !! other = store !! other).
Proof.
  cbv zeta. split; [|split; [|split]].
  - unfold logout. destruct (store !! token) eqn:E; [eauto|].
    rewrite (delete_id _ _ E). eauto.
  - unfold logout. now rewrite lookup_delete_eq.
  - unfold refresh. now rewrite lookup_delete_eq, delete_delete_eq.
  - intros other Hne. apply lookup_delete_ne. congruence.
Qed.

Lemma serve_entries_ok (T : Z) (rq : request) (s : state) :
  map_Forall (entry_ok secret) (routes_tokenStore s) ->
  map_Forall (entry_ok secret) (routes_tokenStore (snd (serve secret T rq s))).
Proof.
  intros H.
  destruct rq as [v sid mb ok|v em pw mb ok|tok|tok|ip au]; cbn [serve].
  - unfold verifyPleskSession.
    destruct (negb (length v =? 0)%nat); [exact H|].
    destruct ok as [[]|]; cbn; try exact H.
    apply map_Forall_insert_2; [|exact H]. split; [reflexivity|]. eexists _, _. reflexivity.
  - unfold verifyMailbox.
    destruct (negb (length v =? 0)%nat); [exact H|].
    destruct (String.eqb em mb) eqn:E; cbn [negb]; [|exact H].
    destruct (negb ok); cbn; [exact H|].
    apply String.eqb_eq in E. subst mb.
    apply map_Forall_insert_2; [|exact H]. split; [reflexivity|]. eexists _, _. reflexivity.
  - unfold refresh.
    destruct (routes_tokenStore s !! tok) as [td|] eqn:E.
    + destruct (expiresAt td <? T)%Z; cbn.
      * now apply map_Forall_delete.
      * destruct (map_Forall_lookup_1 _ _ _ _ H E) as (Hm & _).
        apply map_Forall_insert_2; [|now apply map_Forall_delete].
        split; [exact Hm|]. eexists _, _. reflexivity.
    + cbn. now apply map_Forall_delete.
  - unfold logout.
    destruct (routes_tokenStore s !! tok); cbn; [now apply map_Forall_delete|exact H].
  - destruct (authenticateToken secret T ip au (middleware_tokenStore s)) as [[o st] l].
    exact H.
Qed.

Lemma run_entries_ok (history : list (Z * request)) (s : state) :
  map_Forall (entry_ok secret) (routes_tokenStore s) ->
  map_Forall (entry_ok secret) (routes_tokenStore (run secret history s)).
Proof.
  revert s. induction history as [|[T rq] rest IH]; intros s H; cbn [run].
  - exact H.
  - apply IH, serve_entries_ok, H.
Qed.

(** After any history of requests from the start of the process, every
    registry entry names one mailbox as both identity and target, and is
    filed under a token signed with the routes' secret whose claims carry
    that same mailbox, as [email] and as [mailbox], with type "mail_user".
    Nothing is said of the times: the handlers read the clock anew for each
    of them. *)
Theorem registry_entries_well_formed (history : list (Z * request))
    (token : bearer) (data : token_data) :
  routes_tokenStore (run secret history initial) !! token = Some data ->
  email data = mailbox data /\
  exists issued expiry,
    token = Signed (Payload (email data) (mailbox data) "mail_user" issued expiry) secret.
Proof.
  intros H.
  assert (Hall : map_Forall (entry_ok secret)
                   (routes_tokenStore (run secret history initial))).
  { apply run_entries_ok. cbn. apply map_Forall_empty. }
  exact (map_Forall_lookup_1 _ _ _ _ Hall H).
Qed.

(** An authentication request either hands out no token and leaves the
    registry as it was, or answers 200 with a token and registers exactly
    that token for the mailbox of the request, for 24 hours; the IMAP path
    does the second only if e-mail and mailbox are the same string. *)
Theorem login_registers_what_it_hands_out (now : Z) (validation : list string)
    (sessionId email password mailbox : string) (isValidSession : option bool)
    (isOwner : bool) (store : gmap bearer token_data) :
  (let '(r, store', _) :=
     verifyPleskSession secret now validation sessionId mailbox isValidSession store in
   match reply_token r with
   | None => store' = store /\ AuthRoutes.code r <> 200%nat
   | Some t =>
       AuthRoutes.code r = 200%nat /\
       store' = <[t := TokenData mailbox mailbox now (now + day_ms)]> store
   end) /\
  (let '(r, store', _) :=
     verifyMailbox secret now validation email password mailbox isOwner store in
   match reply_token r with
   | None => store' = store /\ AuthRoutes.code r <> 200%nat
   | Some t =>
       AuthRoutes.code r = 200%nat /\ email = mailbox /\
       store' = <[t := TokenData mailbox mailbox now (now + day_ms)]> store
   end).
Proof.
  split.
  - unfold verifyPleskSession.
    destruct (negb (length validation =? 0)%nat); [cbn; split; [reflexivity|discriminate]|].
    destruct isValidSession as [[]|]; cbn; split; try reflexivity; discriminate.
  - unfold verifyMailbox.
    destruct (negb (length validation =? 0)%nat); [cbn; split; [reflexivity|discriminate]|].
    destruct (String.eqb email mailbox) eqn:E; cbn [negb];
      [|cbn; split; [reflexivity|discriminate]].
    apply String.eqb_eq in E. subst mailbox.
    destruct (negb isOwner); cbn; repeat split; try reflexivity; discriminate.
Qed.

End RegistryFacts.

Lemma registry_entries_well_formed_witness :
  let secret := "k" in
  let history :=
    [(1000%Z, Server.VerifyMailbox [] "a@x.com" "pw" "a@x.com" true);
     (2000%Z, Server.Logout (Token.Opaque "none"))] in
  let token := AuthRoutes.generateToken secret 1000 "a@x.com" "a@x.com" in
  let data := Token.TokenData "a@x.com" "a@x.com" 1000 (1000 + Token.day_ms) in
  Server.routes_tokenStore (Server.run secret history Server.initial) !! token
    = Some data /\
  (Token.email data = Token.mailbox data /\
   exists issued expiry,
     token = Token.Signed (Token.Payload (Token.email data) (Token.mailbox data)
                             "mail_user" issued expiry) secret).
Proof.
  cbv zeta.
  assert (H : Server.routes_tokenStore
                (Server.run "k"
                   [(1000%Z, Server.VerifyMailbox [] "a@x.com" "pw" "a@x.com" true);
                    (2000%Z, Server.Logout (Token.Opaque "none"))] Server.initial)
              !! AuthRoutes.generateToken "k" 1000 "a@x.com" "a@x.com"
              = Some (Token.TokenData "a@x.com" "a@x.com" 1000 (1000 + Token.day_ms))).
  { cbn [Server.run Server.serve snd]. unfold AuthRoutes.verifyMailbox. cbn.
    unfold AuthRoutes.logout. rewrite lookup_insert_ne by discriminate.
    rewrite lookup_empty. cbn. apply lookup_insert_eq. }
  split; [exact H|]. exact (registry_entries_well_formed "k" _ _ _ H).
Defined.

(** ** The rule service: scope and guards *)

Section RuleGuards.
Import Token Validators Middleware SpamRules Scope.

Variable engine : Type.
Variable getSpamRules : engine -> string -> call rules.
Variable addSpamRule :
  engine -> string -> listType -> string -> call adapter_result * engine.
Variable removeSpamRule :
  engine -> string -> listType -> string -> call adapter_result * engine.

Local Abbreviation addRule := (SpamRules.addRule engine getSpamRules addSpamRule).
Local Abbreviation removeRule := (SpamRules.removeRule engine getSpamRules removeSpamRule).
Local Abbreviation getRules := (SpamRules.getRules engine getSpamRules).

Ltac settle_scope E :=
  unfold only_for; cbn; repeat (constructor; cbn); try exact E.

Lemma getRules_scope (req : rule_request) (e : engine) :
  only_for (user_mailbox (user req)) (snd (getRules req e)) /\
  (mailbox req <> user_mailbox (user req) -> snd (fst (getRules req e)) = e).
Proof.
  unfold SpamRules.getRules.
  destruct (negb (length (validation req) =? 0)%nat); [split; [settle_scope I|reflexivity]|].
  destruct (String.eqb (mailbox req) (user_mailbox (user req))) eqn:E; cbn [negb].
  - apply String.eqb_eq in E. split; [|congruence].
    destruct (getSpamRules e (mailbox req)); settle_scope E.
  - split; [settle_scope I|reflexivity].
Qed.

(** The add handler stops at its first statement: no adapter call, engine
    as it was. *)
Lemma addRule_scope (now : Z) (req : rule_request) (e : engine) :
  Forall (fun f => target f = None) (snd (addRule now req e)) /\
  snd (fst (addRule now req e)) = e.
Proof. split; [repeat constructor|reflexivity]. Qed.

Lemma removeRule_scope (req : rule_request) (e : engine) :
  only_for (user_mailbox (user req)) (snd (removeRule req e)) /\
  (mailbox req <> user_mailbox (user req) -> snd (fst (removeRule req e)) = e).
Proof.
  unfold SpamRules.removeRule.
  destruct (negb (length (validation req) =? 0)%nat); [split; [settle_scope I|reflexivity]|].
  destruct (String.eqb (mailbox req) (user_mailbox (user req))) eqn:E; cbn [negb].
  - apply String.eqb_eq in E. split; [|congruence].
    destruct (getSpamRules e (mailbox req)) as [existing|msg]; [|settle_scope E].
    destruct (negb (Js.array_includes _ _)); [settle_scope E|].
    destruct (removeSpamRule e (mailbox req) (rq_listType req) (entry req))
      as [[r|msg] e']; [destruct (negb (success r))|]; settle_scope E.
  - split; [settle_scope I|reflexivity].
Qed.

(** Whatever the request, every adapter call the list and remove handlers
    make is made for the mailbox of the authenticated user, and a request
    that names another mailbox leaves the engine as it was; the add handler
    makes no adapter call at all and never changes the engine. *)
Theorem handlers_serve_own_mailbox_only (now : Z) (req : rule_request) (e : engine) :
  (only_for (user_mailbox (user req)) (snd (getRules req e)) /\
   only_for (user_mailbox (user req)) (snd (removeRule req e))) /\
  (Forall (fun f => target f = None) (snd (addRule now req e)) /\
   snd (fst (addRule now req e)) = e) /\
  (mailbox req <> user_mailbox (user req) ->
   snd (fst (getRules req e)) = e /\
   snd (fst (removeRule req e)) = e).
Proof.
  split; [|split].
  - split; [apply getRules_scope|apply removeRule_scope].
  - apply addRule_scope.
  - intros H. split; [now apply getRules_scope|now apply removeRule_scope].
Qed.

(** The remove handler calls the adapter's remove at most once, with the
    submitted entry, and only for a request that passed the body validation
    and the ownership check and whose entry the fetched list holds. *)
Theorem remove_is_guarded (req : rule_request) (e : engine) :
  List.filter (fun f => match f with RemoveSpamRule _ _ _ => true | _ => false end)
    (snd (removeRule req e)) = [] \/
  List.filter (fun f => match f with RemoveSpamRule _ _ _ => true | _ => false end)
    (snd (removeRule req e))
    = [RemoveSpamRule (mailbox req) (rq_listType req) (entry req)] /\
  validation req = [] /\
  mailbox req = user_mailbox (user req) /\
  exists existing,
    getSpamRules e (mailbox req) = Returned existing /\
    Js.array_includes (select (rq_listType req) existing) (entry req) = true.
Proof.
  unfold SpamRules.removeRule.
  destruct (validation req) as [|x xs] eqn:Hv; cbn [length Nat.eqb negb]; [|now left].
  destruct (String.eqb (mailbox req) (user_mailbox (user req))) eqn:Hm;
    cbn [negb]; [|now left].
  apply String.eqb_eq in Hm.
  destruct (getSpamRules e (mailbox req)) as [existing|msg] eqn:Hget; [|now left].
  destruct (Js.array_includes (select (rq_listType req) existing) (entry req)) eqn:Hin;
    cbn [negb]; [|now left].
  right.
  destruct (removeSpamRule e (mailbox req) (rq_listType req) (entry req))
    as [[r|msg] e']; [destruct (negb (success r))|]; cbn; repeat split; eauto.
Qed.

(** Removing an entry that the fetched list does not hold is answered 404
    "Entry not found in the list"; the adapter's remove is not called and the
    engine is left as it was. *)
Theorem remove_absent_not_found (req : rule_request) (e : engine) (existing : rules) :
  validation req = [] ->
  mailbox req = user_mailbox (user req) ->
  getSpamRules e (mailbox req) = Returned existing ->
  Js.array_includes (select (rq_listType req) existing) (entry req) = false ->
  removeRule req e
    = (ErrorReply 404 "Entry not found in the list" [], e, [GetSpamRules (mailbox req)]).
Proof.
  intros Hv Hm Hget Hin. unfold SpamRules.removeRule.
  rewrite Hv. cbn [length Nat.eqb negb].
  rewrite (proj2 (String.eqb_eq _ _) Hm). cbn [negb].
  now rewrite Hget, Hin.
Qed.

End RuleGuards.

Section RuleGuardScenarios.
Import Validators Middleware SpamRules.

Lemma remove_absent_not_found_witness :
  let principal := User "a@x.com" "a@x.com" "mail_user" in
  let req := RuleRequest [] "a@x.com" Blacklist "spam@bad.com" principal "10.0.0.1" in
  let e : MemoryEngine.engine := [("a@x.com", Whitelist, "spam@bad.com")] in
  let existing := Rules ["spam@bad.com"] [] "" in
  validation req = [] /\
  mailbox req = user_mailbox (user req) /\
  MemoryEngine.getSpamRules e (mailbox req) = Returned existing /\
  Js.array_includes (select (rq_listType req) existing) (entry req) = false /\
  MemoryEngine.removeRule req e
    = (ErrorReply 404 "Entry not found in the list" [], e, [GetSpamRules (mailbox req)]).
Proof.
  cbv zeta.
  split; [reflexivity|]. split; [reflexivity|].
  split; [vm_compute; reflexivity|]. split; [vm_compute; reflexivity|].
  apply (remove_absent_not_found MemoryEngine.engine MemoryEngine.getSpamRules
           MemoryEngine.removeSpamRule _ _ (Rules ["spam@bad.com"] [] ""));
    vm_compute; reflexivity.
Defined.

End RuleGuardScenarios.

(** ** The rate limiter *)

Section RateLimitFacts.
Import Token Middleware RateLimit.

Lemma recent_recent (a b : Z) (l : list Z) :
  (a <= b)%Z -> recent b (recent a l) = recent b l.
Proof.
  intros Hab. unfold recent. induction l as [|t l IH]; [reflexivity|].
  cbn [List.filter].
  destruct (a <? t)%Z eqn:Ha; cbn [List.filter]; rewrite IH; [reflexivity|].
  destruct (b <? t)%Z eqn:Hb; [|reflexivity].
  apply Z.ltb_lt in Hb. apply Z.ltb_ge in Ha. lia.
Qed.

Lemma recent_app (a : Z) (l k : list Z) :
  recent a (l ++ k) = (recent a l ++ recent a k)%list.
Proof. apply List.filter_app. Qed.

Lemma recent_newer (a : Z) (l : list Z) : Forall (fun t => (a < t)%Z) (recent a l).
Proof.
  unfold recent. induction l as [|t l IH]; cbn [List.filter]; [constructor|].
  destruct (a <? t)%Z eqn:E; [|exact IH].
  constructor; [now apply Z.ltb_lt|exact IH].
Qed.

(** After the clean-up, each user is left with the recent part of its list. *)
Lemma cleanUp_lookup (a : Z) (m : gmap string (list Z)) (v : string) :
  default [] (cleanUp a m !! v) = recent a (default [] (m !! v)).
Proof.
  unfold cleanUp. rewrite lookup_omap.
  destruct (m !! v) as [l|]; [|reflexivity].
  change (recent a (default [] (Some l))) with (recent a l).
  cbn [mbind option_bind]. cbv zeta.
  destruct (recent a l); reflexivity.
Qed.

Lemma cleanUp_stored (a : Z) (m : gmap string (list Z)) (v : string) (l : list Z) :
  cleanUp a m !! v = Some l -> l <> [] /\ Forall (fun t => (a < t)%Z) l.
Proof.
  unfold cleanUp. rewrite lookup_omap_Some. intros (l0 & Hf & _). cbv zeta in Hf.
  destruct (recent a l0) as [|t r] eqn:E; [discriminate Hf|].
  cbn in Hf. injection Hf as <-. split; [discriminate|].
  rewrite <- E. apply recent_newer.
Qed.

(** The limiter on an identified request, in terms of the recent requests of
    the user. *)
Lemma userRateLimit_step (maxRequests windowMs now : Z) (u : Middleware.user)
    (ip : string) (m : gmap string (list Z)) :
  let R := recent (now - windowMs) (default [] (m !! user_email u)) in
  (maxRequests <= Z.of_nat (length R))%Z /\
  (exists r l, userRateLimit maxRequests windowMs now (Some u) ip m
               = (Limited r, cleanUp (now - windowMs) m, l)) \/
  (Z.of_nat (length R) < maxRequests)%Z /\
  userRateLimit maxRequests windowMs now (Some u) ip m
    = (Passed, <[user_email u := (R ++ [now])%list]> (cleanUp (now - windowMs) m), []).
Proof.
  cbv zeta. unfold userRateLimit. cbv zeta.
  rewrite cleanUp_lookup, recent_recent by lia.
  destruct (maxRequests <=? _)%Z eqn:E.
  - left. apply Z.leb_le in E. eauto.
  - right. apply Z.leb_gt in E. split; [exact E|reflexivity].
Qed.

(** Every check prunes every user: after a request of an identified user at
    [now], no stored list is empty and every stored time is newer than
    [now - windowMs]. *)
Theorem userRateLimit_prunes (maxRequests windowMs now : Z) (u : Middleware.user)
    (ip : string) (m : gmap string (list Z)) (v : string) (l : list Z) :
  (0 < windowMs)%Z ->
  snd (fst (userRateLimit maxRequests windowMs now (Some u) ip m)) !! v = Some l ->
  l <> [] /\ Forall (fun t => (now - windowMs < t)%Z) l.
Proof.
  intros Hw.
  destruct (userRateLimit_step maxRequests windowMs now u ip m)
    as [[_ (r & lg & ->)]|[_ ->]]; cbn [fst snd].
  - apply cleanUp_stored.
  - destruct (decide (user_email u = v)) as [<-|Hne].
    + rewrite lookup_insert_eq. intros [= <-]. split.
      * destruct (recent _ _); discriminate.
      * apply Forall_app. split; [apply recent_newer|].
        constructor; [lia|constructor].
    + rewrite lookup_insert_ne by exact Hne. apply cleanUp_stored.
Qed.

Lemma admitted_snoc (v : string) (outs : list outcome) (o : outcome) :
  admitted v (outs ++ [o])
    = (admitted v outs
       ++ (if passed o && String.eqb (by_user o) v then [at_time o] else []))%list.
Proof.
  unfold admitted. rewrite List.filter_app, map_app. cbn [List.filter].
  destruct (passed o && String.eqb (by_user o) v); reflexivity.
Qed.

Lemma within_limit_snoc (maxRequests windowMs : Z) (outs : list outcome) (o : outcome) :
  within_limit maxRequests windowMs outs ->
  (passed o = true ->
   (Z.of_nat (length (recent (at_time o - windowMs) (admitted (by_user o) (outs ++ [o]))))
    <= maxRequests)%Z) ->
  within_limit maxRequests windowMs (outs ++ [o]).
Proof.
  intros Hold Hnew i o' Hi Hp.
  apply lookup_app_Some in Hi as [Hi|[Hlen Hi]].
  - rewrite take_app_le by (apply lookup_lt_Some in Hi; lia). now apply Hold.
  - apply list_lookup_singleton_Some in Hi as [Hz ->].
    rewrite take_ge by (rewrite length_app; cbn; lia). now apply Hnew.
Qed.

Lemma run_within_limit (maxRequests windowMs : Z) (history : list (Z * Middleware.user))
    (m : gmap string (list Z)) (outs : list outcome) (T : Z) :
  (0 < windowMs)%Z ->
  chronological T history = true ->
  (forall v, default [] (m !! v) = recent (T - windowMs) (admitted v outs)) ->
  within_limit maxRequests windowMs outs ->
  within_limit maxRequests windowMs (snd (run maxRequests windowMs history m outs)).
Proof.
  intros Hw. revert m outs T.
  induction history as [|[now u] rest IH]; intros m outs T Hc Hinv Hgood; cbn [run].
  - exact Hgood.
  - cbn [chronological] in Hc. apply andb_true_iff in Hc as [HT Hc].
    apply Z.leb_le in HT.
    assert (HR : forall v, recent (now - windowMs) (default [] (m !! v))
                           = recent (now - windowMs) (admitted v outs)).
    { intros v. rewrite Hinv. apply recent_recent. lia. }
    destruct (userRateLimit_step maxRequests windowMs now u "" m)
      as [[_ (r & lg & ->)]|[Hlt ->]]; cbn [is_passed].
    + apply (IH _ _ now Hc).
      * intros v. rewrite cleanUp_lookup, HR, admitted_snoc. cbn [passed andb].
        now rewrite app_nil_r.
      * apply within_limit_snoc; [exact Hgood|]. cbn [passed]. discriminate.
    + rewrite HR in Hlt.
      assert (Hself : recent (now - windowMs)
                        (admitted (user_email u)
                           (outs ++ [Outcome now (user_email u) true]))
                      = (recent (now - windowMs) (admitted (user_email u) outs)
                         ++ [now])%list).
      { rewrite admitted_snoc. cbn [passed by_user at_time andb].
        rewrite String.eqb_refl, recent_app. f_equal.
        unfold recent. cbn [List.filter].
        destruct (now - windowMs <? now)%Z eqn:E; [reflexivity|].
        apply Z.ltb_ge in E. lia. }
      apply (IH _ _ now Hc).
      * intros v. destruct (decide (user_email u = v)) as [<-|Hne].
        -- rewrite lookup_insert_eq. cbn [default]. now rewrite HR, Hself.
        -- rewrite lookup_insert_ne by exact Hne.
           rewrite cleanUp_lookup, HR, admitted_snoc. cbn [passed by_user andb].
           apply String.eqb_neq in Hne. now rewrite Hne, app_nil_r.
      * apply within_limit_snoc; [exact Hgood|]. cbn [passed by_user at_time].
        intros _. rewrite Hself, length_app. cbn [length]. lia.
Qed.

(** The sliding-window guarantee: starting with empty counters, for a
    positive window and a clock that never runs backwards, no user has more
    than [maxRequests] requests passed within any window of [windowMs]. *)
Theorem rate_limit_sliding_window (maxRequests windowMs start : Z)
    (history : list (Z * Middleware.user)) :
  (0 < windowMs)%Z ->
  chronological start history = true ->
  within_limit maxRequests windowMs (snd (run maxRequests windowMs history ∅ [])).
Proof.
  intros Hw Hc. apply (run_within_limit _ _ _ _ _ start Hw Hc).
  - intros v. now rewrite lookup_empty.
  - intros i o Hi. discriminate Hi.
Qed.

End RateLimitFacts.

Lemma userRateLimit_prunes_witness :
  let u := Middleware.User "a@x.com" "a@x.com" "mail_user" in
  let m : gmap string (list Z) := {["a@x.com" := [100; 5500]%Z]} in
  (0 < 1000)%Z /\
  snd (fst (RateLimit.userRateLimit 50 1000 6000 (Some u) "10.0.0.1" m)) !! "a@x.com"
    = Some [5500; 6000]%Z /\
  ([5500; 6000]%Z <> [] /\ Forall (fun t => (6000 - 1000 < t)%Z) [5500; 6000]%Z).
Proof.
  cbv zeta.
  assert (Hw : (0 < 1000)%Z) by lia.
  assert (H : snd (fst (RateLimit.userRateLimit 50 1000 6000
                          (Some (Middleware.User "a@x.com" "a@x.com" "mail_user"))
                          "10.0.0.1" {["a@x.com" := [100; 5500]%Z]})) !! "a@x.com"
              = Some [5500; 6000]%Z)
    by (vm_compute; reflexivity).
  split; [exact Hw|]. split; [exact H|].
  exact (userRateLimit_prunes 50 1000 6000 _ _ _ _ _ Hw H).
Defined.

Lemma rate_limit_sliding_window_witness :
  let u := Middleware.User "a@x.com" "a@x.com" "mail_user" in
  let history := [(0, u); (10, u); (20, u); (1500, u)]%Z in
  (0 < 1000)%Z /\
  RateLimit.chronological 0 history = true /\
  map RateLimit.passed (snd (RateLimit.run 2 1000 history ∅ []))
    = [true; true; false; true] /\
  RateLimit.within_limit 2 1000 (snd (RateLimit.run 2 1000 history ∅ [])).
Proof.
  cbv zeta.
  assert (Hw : (0 < 1000)%Z) by lia.
  split; [exact Hw|]. split; [reflexivity|]. split; [vm_compute; reflexivity|].
  apply (rate_limit_sliding_window 2 1000 0); [exact Hw|reflexivity].
Defined.

(** ** The adapter's parser *)

Section ParserFacts.
Import Js SpamRules Adapter.

Lemma parseLines_clean (source : list string) (lines : list string) (cur : current)
    (w b : list string) :
  (forall line, In line lines -> In line source) ->
  Forall (fun e => clean_entry e = true /\ In e (map trim source)) w ->
  Forall (fun e => clean_entry e = true /\ In e (map trim source)) b ->
  Forall (fun e => clean_entry e = true /\ In e (map trim source))
    (fst (parseLines lines cur w b)) /\
  Forall (fun e => clean_entry e = true /\ In e (map trim source))
    (snd (parseLines lines cur w b)).
Proof.
  revert cur w b. induction lines as [|line rest IH]; intros cur w b Hsub Hw Hb.
  - split; assumption.
  - assert (Hrest : forall l, In l rest -> In l source)
      by (intros l Hl; apply Hsub; now right).
    cbn [parseLines]. cbv zeta.
    destruct (is_whitelist_header (trim line)) eqn:Hwh; [now apply IH|].
    destruct (is_blacklist_header (trim line)) eqn:Hbh; [now apply IH|].
    destruct (truthy (trim line) && negb (startsWith (trim line) "#")) eqn:Hk;
      [|now apply IH].
    assert (Hnew : clean_entry (trim line) = true /\ In (trim line) (map trim source)).
    { split.
      - unfold clean_entry. rewrite trim_idem, String.eqb_refl, Hwh, Hbh.
        apply andb_true_iff in Hk as [-> ->]. reflexivity.
      - apply in_map, Hsub. now left. }
    destruct cur; apply IH; try assumption;
      apply Forall_app; split; try assumption;
      (apply List.Forall_cons; [exact Hnew|apply List.Forall_nil]).
Qed.

(** Every entry the parser returns is the trimmed text of a line of the
    output, is not empty, is no comment, and contains none of the words that
    mark a list header. *)
Theorem parsed_entries_clean (output now e : string) :
  In e (whitelist (parseSpamRules output now) ++ blacklist (parseSpamRules output now)) ->
  clean_entry e = true /\ In e (map trim (split "010" output)).
Proof.
  unfold parseSpamRules. cbv zeta.
  pose proof (parseLines_clean (split "010" output) (split "010" output) NoList [] []
                (fun _ H => H) (List.Forall_nil _) (List.Forall_nil _)) as [Hw Hb].
  destruct (parseLines (split "010" output) NoList [] []) as [w b].
  cbn [fst snd whitelist blacklist] in *.
  rewrite in_app_iff, !filter_In. rewrite Forall_forall in Hw, Hb.
  intros [[H _]|[H _]]; [apply Hw|apply Hb]; now apply list_elem_of_In.
Qed.

Lemma parseLines_no_list (lines : list string) :
  forallb (fun line => negb (is_whitelist_header (trim line))
                       && negb (is_blacklist_header (trim line))) lines = true ->
  parseLines lines NoList [] [] = ([], []).
Proof.
  induction lines as [|line rest IH]; [reflexivity|].
  cbn [forallb]. intros H. apply andb_true_iff in H as [Hl Hr].
  apply andb_true_iff in Hl as [Hw Hb].
  apply negb_true_iff in Hw, Hb.
  cbn [parseLines]. cbv zeta. rewrite Hw, Hb.
  destruct (truthy (trim line) && negb (startsWith (trim line) "#")); now apply IH.
Qed.

(** Lines are kept only under a header: an output none of whose lines names
    a list yields two empty lists. *)
Theorem parse_without_header (output now : string) :
  forallb (fun line => negb (is_whitelist_header (trim line))
                       && negb (is_blacklist_header (trim line)))
    (split "010" output) = true ->
  parseSpamRules output now = Rules [] [] now.
Proof.
  intros H. unfold parseSpamRules. cbv zeta.
  now rewrite (parseLines_no_list _ H).
Qed.

End ParserFacts.

Lemma parsed_entries_clean_witness :
  let output :=
    "whitelist_from" ++ String "010" ("  friend@y.com " ++ String "010" "# note") in
  In "friend@y.com"
    (SpamRules.whitelist (Adapter.parseSpamRules output "t")
     ++ SpamRules.blacklist (Adapter.parseSpamRules output "t")) /\
  (Adapter.clean_entry "friend@y.com" = true /\
   In "friend@y.com" (map Js.trim (Adapter.split "010" output))).
Proof.
  cbv zeta.
  assert (H : In "friend@y.com"
                (SpamRules.whitelist
                   (Adapter.parseSpamRules
                      ("whitelist_from" ++ String "010"
                         ("  friend@y.com " ++ String "010" "# note")) "t")
                 ++ SpamRules.blacklist
                      (Adapter.parseSpamRules
                         ("whitelist_from" ++ String "010"
                            ("  friend@y.com " ++ String "010" "# note")) "t")))
    by (vm_compute; left; reflexivity).
  split; [exact H|]. exact (parsed_entries_clean _ "t" _ H).
Defined.

Lemma parse_without_header_witness :
  let output := "friend@y.com" ++ String "010" "spam@bad.com" in
  forallb (fun line => negb (Adapter.is_whitelist_header (Js.trim line))
                       && negb (Adapter.is_blacklist_header (Js.trim line)))
    (Adapter.split "010" output) = true /\
  Adapter.parseSpamRules output "t" = SpamRules.Rules [] [] "t".
Proof.
  cbv zeta. split; [vm_compute; reflexivity|].
  apply parse_without_header. vm_compute; reflexivity.
Defined.

(** ** The ownership middleware *)

Section OwnershipFacts.
Import Token Middleware.

(** [verifyOwnership] checks the mailbox of the body, or that of the query
    when the body has none or an empty one.  A request with no mailbox, or an
    empty one, passes unchecked; one whose mailbox is the user's passes;
    any other is answered 403 and logged with both mailboxes. *)
Theorem verifyOwnership_decision (body query : option string) (u : user)
    (ip : string) :
  let requested :=
    match body with
    | Some (String c r) => Some (String c r)
    | _ => query
    end in
  match requested with
  | None | Some EmptyString => verifyOwnership body query u ip = (Next u, [])
  | Some r =>
      if String.eqb r (user_mailbox u) then
        verifyOwnership body query u ip = (Next u, [])
      else
        verifyOwnership body query u ip
          = (Respond (Rejection 403 "error"
                        "Access denied: You can only manage your own mailbox"),
             [Log "warn" "Ownership verification failed"
                [("requestedMailbox", r); ("userMailbox", user_mailbox u);
                 ("ip", ip); ("user", user_email u)]])
  end.
Proof.
  cbv zeta. unfold verifyOwnership, js_or.
  destruct body as [[|c r]|]; cbn [Js.truthy];
    destruct query as [[|d q]|]; cbn [Js.truthy andb negb]; try reflexivity;
    match goal with |- context [String.eqb ?a ?b] => destruct (String.eqb a b) end;
    reflexivity.
Qed.

End OwnershipFacts.
